(** * Everything_Web: query cache, pagination, range delivery, transcoding gate

    A shallow embedding of the request-serving core of [main.go]:
    [serveRange], [streamHandler], [searchFilesWithCache],
    [apiSearchHandler], [cleanExpiredCache], [cacheClearHandler],
    [checkFFmpegAvailability], [transcodeHandler] and the path decoding
    shared by the path-carrying handlers.

    Conventions.
    - Go [int] and [int64] are 64-bit two's complement: values are [Z] and
      every arithmetic result goes through [wrap64].
    - Go strings are byte strings: [string]; file contents and response
      bodies are [list byte].
    - The package-level variables [searchCache] and [ffmpegAvailable] live in
      a [ServerState] that is threaded through the handlers, together with a
      trace of the external calls made (search backends, spawned processes).
    - The outside world (search backends, file system, process table) is a
      record of oracles, [World].
    - Functions of the Go standard library ([strconv.ParseInt],
      [strings.Split], [url.QueryUnescape], [http.Error], [io.CopyN], ...)
      are modelled from their documented behaviour, in the modules
      [Strconv], [Strings], [Url], [Http], [Lib] and [Json]. *)

From Stdlib Require Import ZArith Lia List.
From Stdlib.Strings Require Import Ascii String Byte.
From Stdlib Require Import DecimalString.
From stdpp Require Import base gmap strings list list_numbers fin_maps.

Open Scope string_scope.
Open Scope Z_scope.
Open Scope list_scope.

(** ** Machine integers *)

Definition maxInt64 : Z := 2 ^ 63 - 1.
Definition minInt64 : Z := - 2 ^ 63.

(** Two's complement wrap-around of a 64-bit signed result. *)
Definition wrap64 (z : Z) : Z := (z + 2 ^ 63) mod 2 ^ 64 - 2 ^ 63.

Definition inInt64 (z : Z) : Prop := minInt64 ≤ z ≤ maxInt64.

(** ** [strconv] *)

Module Strconv.

Definition isDigit (c : ascii) : bool :=
  let n := N_of_ascii c in ((48 <=? n) && (n <=? 57))%N.

Definition digitVal (c : ascii) : Z := Z.of_N (N_of_ascii c) - 48.

(** The digit loop of [ParseUint] in base 10, on an unbounded accumulator;
    [None] is the syntax error on a byte that is not a decimal digit. *)
Fixpoint parseDigits (acc : Z) (s : string) : option Z :=
  match s with
  | EmptyString => Some acc
  | String c rest =>
      if isDigit c then parseDigits (acc * 10 + digitVal c) rest else None
  end.

Definition ParseUint (s : string) : option Z :=
  match s with
  | EmptyString => None
  | _ => parseDigits 0 s
  end.

(** [strconv.ParseInt(s, 10, 64)]: optional sign, at least one decimal
    digit, nothing else; a value outside of int64 is a range error.  Both
    kinds of error are [None]: the callers only test [err != nil]. *)
Definition ParseInt (s : string) : option Z :=
  match s with
  | EmptyString => None
  | String c rest =>
      let neg := Ascii.eqb c "-" in
      let digits := if Ascii.eqb c "+" || Ascii.eqb c "-" then rest else s in
      match ParseUint digits with
      | None => None
      | Some un =>
          if neg then (if 2 ^ 63 <? un then None else Some (- un))
          else (if 2 ^ 63 <=? un then None else Some un)
      end
  end.

(** [strconv.Atoi]: [ParseInt(s, 10, 0)] at the 64-bit [int]. *)
Definition Atoi (s : string) : option Z := ParseInt s.

(** [strconv.FormatInt(z, 10)], also the verb [%d] of [fmt]. *)
Definition FormatInt (z : Z) : string := NilZero.string_of_int (Z.to_int z).

End Strconv.

(** ** [strings] *)

Module Strings.

(** [strings.HasPrefix(s, prefix)]. *)
Fixpoint HasPrefix (s prefix : string) {struct prefix} : bool :=
  match prefix, s with
  | EmptyString, _ => true
  | String p prefix', String c s' => Ascii.eqb p c && HasPrefix s' prefix'
  | String _ _, EmptyString => false
  end.

(** The slice expression [s[n:]] for [n <= len(s)]. *)
Fixpoint from (n : nat) (s : string) : string :=
  match n, s with
  | O, _ => s
  | S n', String _ s' => from n' s'
  | S _, EmptyString => EmptyString
  end.

(** [strings.Split(s, sep)] for a one-byte separator: the pieces between
    the separators, one more than there are separators. *)
Fixpoint Split (s : string) (sep : ascii) : list string :=
  match s with
  | EmptyString => [EmptyString]
  | String c rest =>
      if Ascii.eqb c sep then EmptyString :: Split rest sep
      else match Split rest sep with
           | piece :: pieces => String c piece :: pieces
           | [] => [String c EmptyString]
           end
  end.

(** [strings.ReplaceAll(s, old, new)] for one-byte [old] and [new]. *)
Fixpoint ReplaceAll (s : string) (old new : ascii) : string :=
  match s with
  | EmptyString => EmptyString
  | String c rest =>
      String (if Ascii.eqb c old then new else c) (ReplaceAll rest old new)
  end.

(** [strings.Contains(s, substr)]. *)
Fixpoint Contains (s substr : string) : bool :=
  HasPrefix s substr
  || match s with
     | EmptyString => false
     | String _ s' => Contains s' substr
     end.

(** The byte [c] occurs in [s]. *)
Fixpoint ContainsByte (s : string) (c : ascii) : bool :=
  match s with
  | EmptyString => false
  | String d rest => Ascii.eqb d c || ContainsByte rest c
  end.

End Strings.

(** ** [net/url] *)

Module Url.

Definition ishex (c : ascii) : bool :=
  let n := N_of_ascii c in
  (((48 <=? n) && (n <=? 57)) || ((97 <=? n) && (n <=? 102))
   || ((65 <=? n) && (n <=? 70)))%N.

Definition unhex (c : ascii) : N :=
  let n := N_of_ascii c in
  (if (48 <=? n) && (n <=? 57) then n - 48
   else if (97 <=? n) && (n <=? 102) then n - 97 + 10
   else if (65 <=? n) && (n <=? 70) then n - 65 + 10
   else 0)%N.

(** First pass of [unescape]: every [%] is followed by two hex digits. *)
Fixpoint wellFormed (s : string) : bool :=
  match s with
  | EmptyString => true
  | String "%" (String a (String b rest)) => ishex a && ishex b && wellFormed rest
  | String "%" _ => false
  | String _ rest => wellFormed rest
  end.

(** Second pass of [unescape] in query mode: [%XX] becomes the byte
    [XX], [+] becomes a space. *)
Fixpoint decode (s : string) : string :=
  match s with
  | EmptyString => EmptyString
  | String "%" (String a (String b rest)) =>
      String (ascii_of_N (unhex a * 16 + unhex b)) (decode rest)
  | String "+" rest => String " " (decode rest)
  | String c rest => String c (decode rest)
  end.

(** [url.QueryUnescape]: [None] is the [EscapeError]. *)
Definition QueryUnescape (s : string) : option string :=
  if wellFormed s then Some (decode s) else None.

End Url.

(** ** [net/http] responses *)

Module Http.

Record Response := mkResponse {
  status : Z;
  header : gmap string string;
  body : list byte }.

(** A response writer nothing was written to: status 200 is what is sent
    when [WriteHeader] is never called. *)
Definition fresh : Response :=
  {| status := 200; header := ∅; body := [] |}.

Definition SetHeader (k v : string) (w : Response) : Response :=
  {| status := status w; header := <[k := v]> (header w); body := body w |}.

Definition WriteHeader (code : Z) (w : Response) : Response :=
  {| status := code; header := header w; body := body w |}.

Definition Write (p : list byte) (w : Response) : Response :=
  {| status := status w; header := header w; body := body w ++ p |}.

Definition StatusPartialContent : Z := 206.
Definition StatusBadRequest : Z := 400.
Definition StatusNotFound : Z := 404.
Definition StatusRequestedRangeNotSatisfiable : Z := 416.
Definition StatusInternalServerError : Z := 500.
Definition StatusServiceUnavailable : Z := 503.

(** The bytes [fmt.Fprintln(w, error)] writes: the message and a newline. *)
Definition errorLine (error : string) : list byte :=
  list_byte_of_string (error +:+ String "010" EmptyString).

(** [http.Error(w, error, code)]: plain-text headers, the status, and the
    message followed by a newline as the body. *)
Definition Error (w : Response) (error : string) (code : Z) : Response :=
  let h := delete "Content-Length" (header w) in
  let h := <["Content-Type" := "text/plain; charset=utf-8"]> h in
  let h := <["X-Content-Type-Options" := "nosniff"]> h in
  {| status := code; header := h; body := body w ++ errorLine error |}.

End Http.

(** ** Files *)

(** [file.Seek(start, 0)] followed by [io.CopyN(w, file, n)]: the bytes
    copied are the at most [n] bytes from offset [start] on; fewer than [n]
    when the file ends first, none when [n <= 0]. *)
Definition seekCopyN (file : list byte) (start n : Z) : list byte :=
  take (Z.to_nat n) (drop (Z.to_nat start) file).

(** ** [serveRange] *)

Definition msgInvalidRange : string := "无效的Range头".

(** Lines 2496-2506: [start] is declared as a zero [int64] and assigned
    only when the first part is not empty. *)
Definition parseStart (part0 : string) : option Z :=
  if String.eqb part0 "" then Some 0 else Strconv.ParseInt part0.

(** Lines 2508-2517: an empty second part stands for the last byte. *)
Definition parseEnd (part1 : string) (fileSize : Z) : option Z :=
  if String.eqb part1 "" then Some (wrap64 (fileSize - 1))
  else Strconv.ParseInt part1.

(** Lines 2519-2544: the validity test, the headers and the copy. *)
Definition respondRange (w : Http.Response) (start end_ : Z)
    (file : list byte) (fileSize : Z) (contentType : string) : Http.Response :=
  if (end_ <? start) || (fileSize <=? start) then
    Http.Error w msgInvalidRange Http.StatusRequestedRangeNotSatisfiable
  else
    let contentLength := wrap64 (wrap64 (end_ - start) + 1) in
    let w := Http.SetHeader "Content-Type" contentType w in
    let w := Http.SetHeader "Content-Range"
               ("bytes " +:+ Strconv.FormatInt start +:+ "-"
                +:+ Strconv.FormatInt end_ +:+ "/"
                +:+ Strconv.FormatInt fileSize) w in
    let w := Http.SetHeader "Content-Length" (Strconv.FormatInt contentLength) w in
    let w := Http.SetHeader "Accept-Ranges" "bytes" w in
    let w := Http.WriteHeader Http.StatusPartialContent w in
    Http.Write (seekCopyN file start contentLength) w.

Definition serveRange (w : Http.Response) (rangeHeader : string)
    (file : list byte) (fileSize : Z) (contentType : string) : Http.Response :=
  let invalid :=
    Http.Error w msgInvalidRange Http.StatusRequestedRangeNotSatisfiable in
  if negb (Strings.HasPrefix rangeHeader "bytes=") then invalid
  else
    let rangeSpec := Strings.from 6 rangeHeader in
    match Strings.Split rangeSpec "-" with
    | [part0; part1] =>
        match parseStart part0 with
        | None => invalid
        | Some start =>
            match parseEnd part1 fileSize with
            | None => invalid
            | Some end_ => respondRange w start end_ file fileSize contentType
            end
        end
    | _ => invalid
    end.

Abbreviation noDash s := (Strings.ContainsByte s "-" = false).

(** The 416 answer of [serveRange]. *)
Definition rangeNotSatisfiable (w : Http.Response) : Http.Response :=
  Http.Error w msgInvalidRange Http.StatusRequestedRangeNotSatisfiable.

(** A file of 1000 zero bytes, the running example of the range tests. *)
Definition file1000 : list byte := repeat x00 1000.


(** ** More of the standard library *)

Module Lib.

(** [strings.ReplaceAll(s, old, new)] for a one-byte [old] and any [new]. *)
Fixpoint ReplaceAll (s : string) (old : ascii) (new : string) : string :=
  match s with
  | EmptyString => EmptyString
  | String c rest =>
      if Ascii.eqb c old then new +:+ ReplaceAll rest old new
      else String c (ReplaceAll rest old new)
  end.

(** [strings.Count(s, sep)] for a one-byte separator. *)
Fixpoint Count (s : string) (sep : ascii) : nat :=
  match s with
  | EmptyString => O
  | String c rest => (if Ascii.eqb c sep then 1 else 0) + Count rest sep
  end.

(** The conversion [string(data)] of a byte slice. *)
Definition stringOf (data : list byte) : string := string_of_list_byte data.

Definition byteIn (lo hi : N) (b : byte) : bool :=
  let n := Byte.to_N b in ((lo <=? n) && (n <=? hi))%N.

(** [utf8.Valid]: ASCII bytes, and the two-, three- and four-byte forms
    with the ranges of the second byte that exclude overlong forms,
    surrogates and code points above U+10FFFF. *)
Fixpoint utf8Valid (p : list byte) : bool :=
  match p with
  | [] => true
  | b :: rest =>
      if byteIn 0 127 b then utf8Valid rest
      else if byteIn 194 223 b then
        match rest with
        | c1 :: r1 => byteIn 128 191 c1 && utf8Valid r1
        | _ => false
        end
      else if byteIn 224 239 b then
        match rest with
        | c1 :: c2 :: r2 =>
            (if byteIn 224 224 b then byteIn 160 191 c1
             else if byteIn 237 237 b then byteIn 128 159 c1
             else byteIn 128 191 c1)
            && byteIn 128 191 c2 && utf8Valid r2
        | _ => false
        end
      else if byteIn 240 244 b then
        match rest with
        | c1 :: c2 :: c3 :: r3 =>
            (if byteIn 240 240 b then byteIn 144 191 c1
             else if byteIn 244 244 b then byteIn 128 143 c1
             else byteIn 128 191 c1)
            && byteIn 128 191 c2 && byteIn 128 191 c3 && utf8Valid r3
        | _ => false
        end
      else false
  end.

End Lib.

(** ** [encoding/json] *)

Module Json.

(** U+FFFD, the replacement character, in UTF-8. *)
Definition replacement : list byte := [xef; xbf; xbd].

(** The text of a JSON string written by [Encoder.Encode] for the Go
    string [p], as a reader of the document decodes it.  The encoder walks
    the string with [utf8.DecodeRuneInString]: a valid encoding is copied,
    as it is or as an escape that stands for the same character (a
    backslash with [n], or with [u003c], or with [u2028]), and a byte at
    which no valid encoding starts is written as the escape [ufffd] of the
    replacement character and skipped alone. *)
Fixpoint stringBytes (p : list byte) : list byte :=
  match p with
  | [] => []
  | b :: rest =>
      let invalid := replacement ++ stringBytes rest in
      if Lib.byteIn 0 127 b then b :: stringBytes rest
      else if Lib.byteIn 194 223 b then
        match rest with
        | c1 :: r1 =>
            if Lib.byteIn 128 191 c1 then b :: c1 :: stringBytes r1
            else invalid
        | _ => invalid
        end
      else if Lib.byteIn 224 239 b then
        match rest with
        | c1 :: c2 :: r2 =>
            if (if Lib.byteIn 224 224 b then Lib.byteIn 160 191 c1
                else if Lib.byteIn 237 237 b then Lib.byteIn 128 159 c1
                else Lib.byteIn 128 191 c1)
               && Lib.byteIn 128 191 c2
            then b :: c1 :: c2 :: stringBytes r2
            else invalid
        | _ => invalid
        end
      else if Lib.byteIn 240 244 b then
        match rest with
        | c1 :: c2 :: c3 :: r3 =>
            if (if Lib.byteIn 240 240 b then Lib.byteIn 144 191 c1
                else if Lib.byteIn 244 244 b then Lib.byteIn 128 143 c1
                else Lib.byteIn 128 191 c1)
               && Lib.byteIn 128 191 c2 && Lib.byteIn 128 191 c3
            then b :: c1 :: c2 :: c3 :: stringBytes r3
            else invalid
        | _ => invalid
        end
      else invalid
  end.

(** The same on a string value. *)
Definition text (s : string) : string :=
  Lib.stringOf (stringBytes (list_byte_of_string s)).

(** [utf8.ValidString]. *)
Definition valid (s : string) : bool := Lib.utf8Valid (list_byte_of_string s).

End Json.

(** ** The clock *)

(** A [time.Time] is the number of nanoseconds on the process's clock; a
    [time.Duration] is an [int64] count of nanoseconds, and [Time.Sub]
    saturates at its bounds. *)
Definition Minute : Z := 60 * 1000000000.

Definition saturate64 (z : Z) : Z := Z.max minInt64 (Z.min maxInt64 z).

(** [time.Since(t)], evaluated when the clock reads [now]. *)
Definition Since (now t : Z) : Z := saturate64 (now - t).

(** ** Package-level state *)

Record SearchCache := mkSearchCache {
  Paths : list string;
  Timestamp : Z }.

Definition cacheExpiry : Z := 10 * Minute.
Definition DefaultPageSize : Z := 50.
Definition MaxPageSize : Z := 200.

(** The calls that leave the process. *)
Inductive event :=
  | CallSDK (query : string)                  (* searchWithEverythingSDK *)
  | CallESExe (query : string)                (* searchWithESExe *)
  | CmdRun (name : string) (args : list string)    (* exec.Command(..).Run() *)
  (* exec.Command(..).Start() returned nil: the process runs *)
  | CmdStart (name : string) (args : list string)
  (* exec.Command(..).Start() returned an error: no process runs *)
  | CmdStartFailed (name : string) (args : list string).

Record ServerState := mkServerState {
  searchCache : gmap string SearchCache;
  ffmpegAvailable : bool;
  trace : list event }.

(** What [main] starts from: the initial values of the [var] block. *)
Definition initialState : ServerState :=
  {| searchCache := ∅; ffmpegAvailable := false; trace := [] |}.

Definition setCache (m : gmap string SearchCache) (st : ServerState) : ServerState :=
  {| searchCache := m; ffmpegAvailable := ffmpegAvailable st; trace := trace st |}.

Definition setFFmpeg (b : bool) (st : ServerState) : ServerState :=
  {| searchCache := searchCache st; ffmpegAvailable := b; trace := trace st |}.

Definition logEvent (e : event) (st : ServerState) : ServerState :=
  {| searchCache := searchCache st; ffmpegAvailable := ffmpegAvailable st;
     trace := trace st ++ [e] |}.

(** ** The outside world *)

Record FileInfo := mkFileInfo {
  fiSize : Z;
  fiModTime : string;     (* ModTime().Format("2006-01-02 15:04:05") *)
  fiIsDir : bool }.

Inductive StatResult :=
  | StatOk (info : FileInfo)
  | StatNotExist
  | StatFailed (err : string).

Record World := mkWorld {
  (* what the Everything DLL answers: the paths, or the error *)
  everythingSDK : string → list string + string;
  (* what ./es.exe answers: its non-blank trimmed output lines, or the
     error of [cmd.Output] *)
  esExe : string → list string + string;
  osStat : string → StatResult;
  osOpen : string → option (list byte);
  filepathBase : string → string;
  (* strings.ToLower(filepath.Ext(path)) *)
  lowerExt : string → string;
  (* exec.Command(name, args...).Run() returned nil *)
  cmdRun : string → list string → bool;
  (* exec.Command(name, args...) started and waited for: its standard
     output, or [None] when [Start] fails *)
  cmdStart : string → list string → option (list byte);
  (* exec.Command(name, args...).StderrPipe() returned no error *)
  cmdStderrPipe : string → list string → bool }.

(** ** Search backends *)

Definition searchWithEverythingSDK (W : World) (query : string)
    (st : ServerState) : (list string + string) * ServerState :=
  (everythingSDK W query, logEvent (CallSDK query) st).

Definition searchWithESExe (W : World) (query : string)
    (st : ServerState) : (list string + string) * ServerState :=
  let st := logEvent (CallESExe query) st in
  match esExe W query with
  | inr err => (inr ("执行es.exe失败: " +:+ err), st)
  | inl paths => (inl paths, st)
  end.

(** ** [searchFilesWithCache] *)

Record SearchResult := mkSearchResult {
  Name : string;
  Path : string;
  Size : Z;
  Modified : string;
  Type_ : string;
  IsDir : bool }.

(** How a call ends: with its results, with an [error], or in a run-time
    panic. *)
Inductive outcome (A : Type) :=
  | Returned (a : A)
  | Failed (err : string)
  | Panicked.
Arguments Returned {A} a.
Arguments Failed {A} err.
Arguments Panicked {A}.

(** Lines 2164-2171, the read of the cache: the entry of [query] when it
    exists and is younger than [cacheExpiry]. *)
Definition cacheGet (st : ServerState) (query : string) (now : Z)
    : option (list string) :=
  match searchCache st !! query with
  | Some cache =>
      if Since now (Timestamp cache) <? cacheExpiry then Some (Paths cache)
      else None
  | None => None
  end.

(** Lines 2197-2202, the write of the cache. *)
Definition cachePut (query : string) (allPaths : list string) (now : Z)
    (st : ServerState) : ServerState :=
  setCache (<[query := {| Paths := allPaths; Timestamp := now |}]> (searchCache st)) st.

(** Lines 2181-2189, the new search. *)
Definition searchBackends (W : World) (query : string) (st : ServerState)
    : (list string + string) * ServerState :=
  let '(r, st) := searchWithEverythingSDK W query st in
  match r with
  | inl allPaths => (inl allPaths, st)
  | inr err =>
      let '(r, st) := searchWithESExe W query st in
      match r with
      | inl allPaths => (inl allPaths, st)
      | inr err =>
          (* [err] was assigned by the call of line 2185: both verbs print it *)
          (inr ("搜索失败 - SDK错误: " +:+ err +:+ ", es.exe错误: " +:+ err), st)
      end
  end.

(** Lines 2214-2224: the indices the loop of the page visits. *)
Definition pageWindow (page pageSize totalCount : Z) : list Z :=
  let start := wrap64 (wrap64 (page - 1) * pageSize) in
  let end_ := wrap64 (start + pageSize) in
  let end_ := if totalCount <? end_ then totalCount else end_ in
  if start <? totalCount then seqZ start (end_ - start) else [].

Definition fileType (W : World) (filePath : string) (isDir : bool) : string :=
  if isDir then "folder"
  else
    let ext := lowerExt W filePath in
    if bool_decide (ext ∈ [".mp4"; ".mkv"; ".avi"; ".mov"; ".wmv"; ".flv"; ".webm"])
    then "video"
    else if bool_decide (ext ∈ [".jpg"; ".jpeg"; ".png"; ".gif"; ".bmp"; ".webp"])
    then "image"
    else "file".

(** Lines 2224-2260, the loop: [None] is the panic of an index out of
    range; a path that cannot be stat'ed is skipped. *)
Fixpoint collectPage (W : World) (allPaths : list string) (window : list Z)
    (results : list SearchResult) : option (list SearchResult) :=
  match window with
  | [] => Some results
  | i :: window' =>
      if (i <? 0) || (Z.of_nat (length allPaths) <=? i) then None
      else
        match allPaths !! Z.to_nat i with
        | None => None
        | Some filePath =>
            match osStat W filePath with
            | StatOk info =>
                let result :=
                  {| Name := filepathBase W filePath; Path := filePath;
                     Size := fiSize info; Modified := fiModTime info;
                     Type_ := fileType W filePath (fiIsDir info);
                     IsDir := fiIsDir info |} in
                collectPage W allPaths window' (results ++ [result])
            | _ => collectPage W allPaths window' results
            end
        end
  end.

(** Lines 2207-2265. *)
Definition paginate (W : World) (allPaths : list string) (page pageSize : Z)
    (fromCache : bool) : outcome (list SearchResult * Z * bool) :=
  let totalCount := Z.of_nat (length allPaths) in
  if totalCount =? 0 then Returned ([], 0, fromCache)
  else
    match collectPage W allPaths (pageWindow page pageSize totalCount) [] with
    | Some results => Returned (results, totalCount, fromCache)
    | None => Panicked
    end.

(** [tGet] is the clock when the entry's age is taken (line 2171), [tPut]
    the clock when a new entry is stamped (line 2200). *)
Definition searchFilesWithCache (W : World) (tGet tPut : Z) (query : string)
    (page pageSize : Z) (st : ServerState)
    : outcome (list SearchResult * Z * bool) * ServerState :=
  match cacheGet st query tGet with
  | Some allPaths => (paginate W allPaths page pageSize true, st)
  | None =>
      let '(r, st) := searchBackends W query st in
      match r with
      | inr err => (Failed err, st)
      | inl allPaths =>
          let st := cachePut query allPaths tPut st in
          (paginate W allPaths page pageSize false, st)
      end
  end.

(** ** [apiSearchHandler] *)

Record SearchResponse := mkSearchResponse {
  Results : list SearchResult;
  Count : Z;
  TotalCount : Z;
  Query : string;
  Page : Z;
  PageSize : Z;
  TotalPages : Z }.

Inductive ApiReply :=
  | ReplyError (code : Z) (message : string)
  | ReplyJSON (response : SearchResponse)
  | ReplyAborted.              (* the handler panicked: no answer is sent *)

(** Lines 2114-2121. *)
Definition parsePage (pageStr : string) : Z :=
  if String.eqb pageStr "" then 1
  else match Strconv.Atoi pageStr with
       | Some p => if 0 <? p then p else 1
       | None => 1
       end.

(** Lines 2115-2127. *)
Definition parsePageSize (pageSizeStr : string) : Z :=
  if String.eqb pageSizeStr "" then DefaultPageSize
  else match Strconv.Atoi pageSizeStr with
       | Some ps => if (0 <? ps) && (ps <=? MaxPageSize) then ps else DefaultPageSize
       | None => DefaultPageSize
       end.

(** Line 2139; the division of Go truncates. *)
Definition totalPagesOf (totalCount pageSize : Z) : Z :=
  Z.quot (wrap64 (wrap64 (totalCount + pageSize) - 1)) pageSize.

(** Line 2158: the document [json.NewEncoder(w).Encode(response)] writes,
    by the values of its fields as a reader decodes them: numbers and
    booleans as they are, strings as [Json.text] gives them.  The empty
    list of results stands for the empty array and for the [null] that is
    written for a nil slice. *)
Definition encodeSearchResult (result : SearchResult) : SearchResult :=
  {| Name := Json.text (Name result);
     Path := Json.text (Path result);
     Size := Size result;
     Modified := Json.text (Modified result);
     Type_ := Json.text (Type_ result);
     IsDir := IsDir result |}.

Definition encodeSearchResponse (response : SearchResponse) : SearchResponse :=
  {| Results := map encodeSearchResult (Results response);
     Count := Count response;
     TotalCount := TotalCount response;
     Query := Json.text (Query response);
     Page := Page response;
     PageSize := PageSize response;
     TotalPages := TotalPages response |}.

(** Lines 2103-2159; [ReplyJSON] carries the document that is written. *)
Definition apiSearchHandler (W : World) (tGet tPut : Z)
    (query pageStr pageSizeStr : string) (st : ServerState)
    : ApiReply * ServerState :=
  if String.eqb query "" then
    (ReplyError Http.StatusBadRequest "查询参数不能为空", st)
  else
    let page := parsePage pageStr in
    let pageSize := parsePageSize pageSizeStr in
    let '(r, st) := searchFilesWithCache W tGet tPut query page pageSize st in
    match r with
    | Failed err =>
        (ReplyError Http.StatusInternalServerError ("搜索失败: " +:+ err), st)
    | Panicked => (ReplyAborted, st)
    | Returned (results, totalCount, _) =>
        let response :=
          {| Results := results;
             Count := Z.of_nat (length results);
             TotalCount := totalCount;
             Query := query;
             Page := page;
             PageSize := pageSize;
             TotalPages := totalPagesOf totalCount pageSize |} in
        (ReplyJSON (encodeSearchResponse response), st)
    end.

(** ** [cleanExpiredCache] and [cacheClearHandler] *)

(** The test of line 2274. *)
Definition stale (now : Z) (cache : SearchCache) : bool :=
  cacheExpiry <? Since now (Timestamp cache).

(** The body of the loop of lines 2273-2278 for one entry. *)
Definition sweepEntry (now : Z) (entry : string * SearchCache)
    (m : gmap string SearchCache) : gmap string SearchCache :=
  let '(query, cache) := entry in
  if stale now cache then delete query m else m.

(** The loop ranges over the entries of the map and deletes from the map it
    ranges over; [now] is the clock during the sweep. *)
Definition cleanExpiredCache (now : Z) (st : ServerState) : ServerState :=
  setCache (foldr (sweepEntry now) (searchCache st) (map_to_list (searchCache st))) st.

(** Lines 2646-2647; the count is what the JSON answer reports. *)
Definition cacheClearHandler (st : ServerState) : Z * ServerState :=
  let oldCount := Z.of_nat (size (searchCache st)) in
  (oldCount, setCache ∅ st).

(** ** Paths of the path-carrying handlers *)

(** The loop [for i := 0; i < 3; i++] of lines 2298-2304, 2407-2413 and
    2893-2899, with [n] passes left. *)
Fixpoint unescapeLoop (n : nat) (filePath : string) : string :=
  match n with
  | O => filePath
  | S n' =>
      match Url.QueryUnescape filePath with
      | Some decoded => unescapeLoop n' decoded
      | None => filePath
      end
  end.

Definition toWindowsPath (filePath : string) : string :=
  Strings.ReplaceAll filePath "/" "\".

(** Lines 2295-2307. *)
Definition fileHandler_filePath (urlPath : string) : string :=
  toWindowsPath (unescapeLoop 3 (Strings.from 6 urlPath)).

(** Lines 2404-2416. *)
Definition streamHandler_filePath (urlPath : string) : string :=
  toWindowsPath (unescapeLoop 3 (Strings.from 8 urlPath)).

(** Lines 2890-2902. *)
Definition transcodeHandler_filePath (urlPath : string) : string :=
  toWindowsPath (unescapeLoop 3 (Strings.from 11 urlPath)).

(** ** [streamHandler] *)

Definition videoContentType (ext : string) : string :=
  if String.eqb ext ".mp4" then "video/mp4"
  else if String.eqb ext ".mkv" then "video/x-matroska"
  else if String.eqb ext ".avi" then "video/x-msvideo"
  else if String.eqb ext ".mov" then "video/quicktime"
  else if String.eqb ext ".wmv" then "video/x-ms-wmv"
  else if String.eqb ext ".flv" then "video/x-flv"
  else if String.eqb ext ".webm" then "video/webm"
  else "application/octet-stream".

Definition streamHandler (W : World) (urlPath rangeHeader : string)
    : Http.Response :=
  let w := Http.fresh in
  let filePath := streamHandler_filePath urlPath in
  match osStat W filePath with
  | StatNotExist => Http.Error w "文件不存在" Http.StatusNotFound
  | StatFailed err =>
      Http.Error w ("访问文件失败: " +:+ err) Http.StatusInternalServerError
  | StatOk fileInfo =>
      match osOpen W filePath with
      | None => Http.Error w "无法打开文件" Http.StatusInternalServerError
      | Some file =>
          let contentType := videoContentType (lowerExt W filePath) in
          if negb (String.eqb rangeHeader "") then
            serveRange w rangeHeader file (fiSize fileInfo) contentType
          else
            let w := Http.SetHeader "Content-Type" contentType w in
            let w := Http.SetHeader "Content-Length"
                       (Strconv.FormatInt (fiSize fileInfo)) w in
            let w := Http.SetHeader "Accept-Ranges" "bytes" w in
            Http.Write file w
      end
  end.

(** ** The transcoder *)

Definition ffmpegProbeArgs : list string := ["-version"].

(** Lines 2660-2670. *)
Definition checkFFmpegAvailability (W : World) (st : ServerState) : ServerState :=
  let st := logEvent (CmdRun "ffmpeg" ffmpegProbeArgs) st in
  setFFmpeg (cmdRun W "ffmpeg" ffmpegProbeArgs) st.

(** Lines 2925-2935. *)
Definition ffmpegArgs (filePath : string) : list string :=
  ["-i"; filePath; "-c:v"; "libx264"; "-c:a"; "aac"; "-preset"; "fast";
   "-crf"; "23"; "-maxrate"; "2M"; "-bufsize"; "4M"; "-f"; "mp4";
   "-movflags"; "frag_keyframe+empty_moov"; "-"].

(** Lines 2883-2982.  The standard output of the process is the response
    writer; the goroutine that reads its standard error only logs.  The
    process is waited for, whatever its exit status. *)
Definition transcodeHandler (W : World) (urlPath : string) (st : ServerState)
    : Http.Response * ServerState :=
  let w := Http.fresh in
  if negb (ffmpegAvailable st) then
    (Http.Error w "ffmpeg不可用" Http.StatusServiceUnavailable, st)
  else
    let filePath := transcodeHandler_filePath urlPath in
    match osStat W filePath with
    | StatNotExist => (Http.Error w "文件不存在" Http.StatusNotFound, st)
    | _ =>
        let w := Http.SetHeader "Content-Type" "video/mp4" w in
        let w := Http.SetHeader "Accept-Ranges" "bytes" w in
        let w := Http.SetHeader "Cache-Control" "no-cache" w in
        let args := ffmpegArgs filePath in
        if negb (cmdStderrPipe W "ffmpeg" args) then
          (Http.Error w "转码初始化失败" Http.StatusInternalServerError, st)
        else
          match cmdStart W "ffmpeg" args with
          | None =>
              (Http.Error w "转码启动失败" Http.StatusInternalServerError,
               logEvent (CmdStartFailed "ffmpeg" args) st)
          | Some output =>
              (Http.Write output w, logEvent (CmdStart "ffmpeg" args) st)
          end
    end.

(** ** [main]: the probe, then the requests *)

(** The requests of the core, and the tick of the sweeper; requests are
    taken one after the other. *)
Inductive Request :=
  | GetTranscode (urlPath : string)
  | GetStream (urlPath rangeHeader : string)
  | GetApiSearch (tGet tPut : Z) (query pageStr pageSizeStr : string)
  | PostCacheClear
  | Tick (now : Z).

Inductive Reply :=
  | Sent (response : Http.Response)
  | SentApi (reply : ApiReply)
  | SentCleared (count : Z)
  | Silent.

Definition handle (W : World) (req : Request) (st : ServerState)
    : Reply * ServerState :=
  match req with
  | GetTranscode urlPath =>
      let '(r, st) := transcodeHandler W urlPath st in (Sent r, st)
  | GetStream urlPath rangeHeader => (Sent (streamHandler W urlPath rangeHeader), st)
  | GetApiSearch tGet tPut query pageStr pageSizeStr =>
      let '(r, st) := apiSearchHandler W tGet tPut query pageStr pageSizeStr st in
      (SentApi r, st)
  | PostCacheClear =>
      let '(n, st) := cacheClearHandler st in (SentCleared n, st)
  | Tick now => (Silent, cleanExpiredCache now st)
  end.

Fixpoint serve (W : World) (reqs : list Request) (st : ServerState)
    : list Reply * ServerState :=
  match reqs with
  | [] => ([], st)
  | req :: reqs' =>
      let '(reply, st) := handle W req st in
      let '(replies, st) := serve W reqs' st in
      (reply :: replies, st)
  end.

Definition main (W : World) (reqs : list Request) : list Reply * ServerState :=
  serve W reqs (checkFFmpegAvailability W initialState).

(** ** Worlds and inputs of the examples *)

(** A sequence of calls of [searchFilesWithCache] for one query, each with
    its clock readings, page and page size. *)
Fixpoint searchRepeatedly (W : World) (query : string)
    (calls : list (Z * Z * Z * Z)) (st : ServerState) : ServerState :=
  match calls with
  | [] => st
  | (tGet, tPut, page, pageSize) :: calls' =>
      searchRepeatedly W query calls'
        (snd (searchFilesWithCache W tGet tPut query page pageSize st))
  end.

Definition isCmdRun (e : event) : bool :=
  match e with CmdRun _ _ => true | _ => false end.

Definition isCmdStart (e : event) : bool :=
  match e with CmdStart _ _ => true | _ => false end.

Definition fivePaths : list string := ["a"; "b"; "c"; "d"; "e"].

(** A world in which every path is a plain file and both backends work. *)
Definition worldFiles : World :=
  {| everythingSDK := λ _, inl fivePaths;
     esExe := λ _, inl fivePaths;
     osStat := λ _, StatOk {| fiSize := 1; fiModTime := "2024-01-01 00:00:00";
                              fiIsDir := false |};
     osOpen := λ _, Some file1000;
     filepathBase := λ p, p;
     lowerExt := λ _, ".mp4";
     cmdRun := λ _ _, false;
     cmdStart := λ _ _, None;
     cmdStderrPipe := λ _ _, true |}.

(** A world in which the query of the DLL fails and es.exe exits with an
    error. *)
Definition worldBackendsDown : World :=
  {| everythingSDK := λ _, inr "Everything查询失败，错误码: 2";
     esExe := λ _, inr "exit status 1";
     osStat := λ _, StatNotExist;
     osOpen := λ _, None;
     filepathBase := λ p, p;
     lowerExt := λ _, "";
     cmdRun := λ _ _, false;
     cmdStart := λ _ _, None;
     cmdStderrPipe := λ _ _, true |}.

(** The cache seeded with five paths under the query [video] at time 0. *)
Definition seededState : ServerState :=
  cachePut "video" fivePaths 0 initialState.



(** ** Tables of extensions *)

(** Lines 2351-2400. *)
Definition getContentType (ext : string) : string :=
  if String.eqb ext ".jpg" || String.eqb ext ".jpeg" then "image/jpeg"
  else if String.eqb ext ".png" then "image/png"
  else if String.eqb ext ".gif" then "image/gif"
  else if String.eqb ext ".bmp" then "image/bmp"
  else if String.eqb ext ".webp" then "image/webp"
  else if String.eqb ext ".mp4" then "video/mp4"
  else if String.eqb ext ".avi" then "video/x-msvideo"
  else if String.eqb ext ".mkv" then "video/x-matroska"
  else if String.eqb ext ".mov" then "video/quicktime"
  else if String.eqb ext ".wmv" then "video/x-ms-wmv"
  else if String.eqb ext ".flv" then "video/x-flv"
  else if String.eqb ext ".webm" then "video/webm"
  else if String.eqb ext ".pdf" then "application/pdf"
  else if String.eqb ext ".txt" then "text/plain"
  else if String.eqb ext ".html" || String.eqb ext ".htm" then "text/html"
  else if String.eqb ext ".css" then "text/css"
  else if String.eqb ext ".js" then "application/javascript"
  else if String.eqb ext ".json" then "application/json"
  else if String.eqb ext ".xml" then "application/xml"
  else if String.eqb ext ".zip" then "application/zip"
  else if String.eqb ext ".rar" then "application/x-rar-compressed"
  else if String.eqb ext ".7z" then "application/x-7z-compressed"
  else "application/octet-stream".

(** The loop [for _, x := range list { if ext == x { return true } }]. *)
Definition oneOf (ext : string) (list : list string) : bool :=
  existsb (String.eqb ext) list.

Definition imageExts : list string :=
  [".jpg"; ".jpeg"; ".png"; ".gif"; ".bmp"; ".webp"].

(** Lines 2583-2591. *)
Definition isImageFile (ext : string) : bool := oneOf ext imageExts.

(** Line 1302 of [videoPlayerHandler]. *)
Definition videoExts : list string :=
  [".mp4"; ".mkv"; ".avi"; ".mov"; ".wmv"; ".flv"; ".webm"].

Definition textExts : list string :=
  [".txt"; ".log"; ".md"; ".readme"; ".conf"; ".config"; ".ini"; ".cfg";
   ".c"; ".cpp"; ".cc"; ".cxx"; ".h"; ".hpp"; ".hxx";
   ".cs"; ".vb"; ".fs";
   ".java"; ".kt"; ".scala"; ".groovy";
   ".js"; ".ts"; ".jsx"; ".tsx"; ".mjs"; ".cjs";
   ".py"; ".pyw"; ".pyi"; ".pyx"; ".pxd";
   ".rb"; ".rake"; ".gemfile";
   ".php"; ".phtml"; ".php3"; ".php4"; ".php5"; ".phps";
   ".go"; ".mod"; ".sum";
   ".rs"; ".toml";
   ".swift"; ".m"; ".mm";
   ".lua"; ".pl"; ".pm"; ".t";
   ".sh"; ".bash"; ".zsh"; ".fish"; ".bat"; ".cmd"; ".ps1";
   ".r"; ".R"; ".rmd";
   ".matlab"; ".m";
   ".html"; ".htm"; ".xhtml"; ".xml"; ".xsl"; ".xsd";
   ".json"; ".jsonc"; ".yaml"; ".yml"; ".toml";
   ".css"; ".scss"; ".sass"; ".less"; ".styl";
   ".sql"; ".mysql"; ".psql"; ".sqlite";
   ".dockerfile"; ".dockerignore"; ".gitignore"; ".gitattributes";
   ".makefile"; ".mk"; ".cmake"; ".ninja";
   ".gradle"; ".maven"; ".pom"; ".ant";
   ".properties"; ".env"; ".htaccess";
   ".csv"; ".tsv"; ".sv"; ".tex"; ".bib";
   ".vim"; ".vimrc"; ".emacs";
   ".reg"; ".inf"; ".desktop"].

Definition commonTextFiles : list string :=
  ["makefile"; "dockerfile"; "jenkinsfile"; "vagrantfile";
   "readme"; "license"; "changelog"; "authors"; "contributors";
   "install"; "news"; "todo"; "copying"; "manifest"].

(** Lines 3709-3765.  [toLower] stands for [strings.ToLower]; the name
    that is compared with the common file names is taken from [ext], the
    only argument. *)
Definition isTextFile (W : World) (toLower : string → string) (ext : string)
    : bool :=
  if oneOf ext textExts then true
  else
    let fileName := toLower (filepathBase W ext) in
    oneOf fileName commonTextFiles.

Definition languagePairs : list (string * string) :=
  [(".c", "C");
   (".cpp", "C++"); (".cc", "C++"); (".cxx", "C++");
   (".h", "C/C++"); (".hpp", "C++"); (".hxx", "C++");
   (".cs", "C#");
   (".vb", "Visual Basic");
   (".fs", "F#");
   (".java", "Java");
   (".kt", "Kotlin");
   (".scala", "Scala");
   (".js", "JavaScript"); (".mjs", "JavaScript"); (".cjs", "JavaScript");
   (".ts", "TypeScript");
   (".jsx", "React"); (".tsx", "React");
   (".py", "Python"); (".pyw", "Python"); (".pyi", "Python");
   (".rb", "Ruby");
   (".php", "PHP"); (".phtml", "PHP");
   (".go", "Go");
   (".rs", "Rust");
   (".swift", "Swift");
   (".lua", "Lua");
   (".pl", "Perl"); (".pm", "Perl");
   (".sh", "Shell"); (".bash", "Bash"); (".zsh", "Zsh");
   (".bat", "Batch"); (".cmd", "Batch");
   (".ps1", "PowerShell");
   (".r", "R"); (".R", "R");
   (".html", "HTML"); (".htm", "HTML"); (".xhtml", "HTML");
   (".xml", "XML"); (".xsl", "XML"); (".xsd", "XML");
   (".css", "CSS"); (".scss", "SCSS"); (".sass", "Sass"); (".less", "Less");
   (".json", "JSON"); (".jsonc", "JSON");
   (".yaml", "YAML"); (".yml", "YAML");
   (".toml", "TOML");
   (".sql", "SQL"); (".mysql", "SQL"); (".psql", "SQL");
   (".md", "Markdown");
   (".log", "Log");
   (".txt", "Text");
   (".ini", "INI"); (".cfg", "Config"); (".conf", "Config");
   (".dockerfile", "Dockerfile");
   (".makefile", "Makefile"); (".mk", "Makefile")].

(** The map literal of lines 3769-3807. *)
Definition languageMap : gmap string string := list_to_map languagePairs.

(** Lines 3768-3814. *)
Definition getLanguageFromExtension (ext : string) : string :=
  match languageMap !! ext with
  | Some lang => lang
  | None => "Text"
  end.

(** ** [escapeHtml] *)

Definition quoteByte : ascii := "034".

(** Lines 3817-3824. *)
Definition escapeHtml (s : string) : string :=
  let s := Lib.ReplaceAll s "&" "&amp;" in
  let s := Lib.ReplaceAll s "<" "&lt;" in
  let s := Lib.ReplaceAll s ">" "&gt;" in
  let s := Lib.ReplaceAll s quoteByte "&quot;" in
  let s := Lib.ReplaceAll s "'" "&#x27;" in
  s.

(** What [escapeHtml] writes for one byte. *)
Definition escapeByte (c : ascii) : string :=
  if Ascii.eqb c "&" then "&amp;"
  else if Ascii.eqb c "<" then "&lt;"
  else if Ascii.eqb c ">" then "&gt;"
  else if Ascii.eqb c quoteByte then "&quot;"
  else if Ascii.eqb c "'" then "&#x27;"
  else String c EmptyString.

(** The reading of the five entities back into their bytes; it is not part
    of the server and serves to show that [escapeHtml] loses nothing. *)
Fixpoint unescapeHtml (s : string) : string :=
  match s with
  | EmptyString => EmptyString
  | String "&" (String "a" (String "m" (String "p" (String ";" rest)))) =>
      String "&" (unescapeHtml rest)
  | String "&" (String "l" (String "t" (String ";" rest))) =>
      String "<" (unescapeHtml rest)
  | String "&" (String "g" (String "t" (String ";" rest))) =>
      String ">" (unescapeHtml rest)
  | String "&" (String "q" (String "u" (String "o" (String "t" (String ";" rest))))) =>
      String quoteByte (unescapeHtml rest)
  | String "&" (String "#" (String "x" (String "2" (String "7" (String ";" rest))))) =>
      String "'" (unescapeHtml rest)
  | String c rest => String c (unescapeHtml rest)
  end.

(** ** Text encodings *)

(** Lines 3203-3205: [strings.ToValidUTF8(s, r)] copies [s] and replaces
    every run of invalid bytes by [r]; the copy is valid UTF-8, so it is
    [s] again exactly when [s] is valid. *)
Definition isValidUTF8 (data : list byte) : bool :=
  (0 <? Z.of_nat (length data)) && Lib.utf8Valid data.

(** Lines 3208-3228. *)
Definition tryGBKDecode (data : list byte) : string :=
  let hasHighByte := existsb (λ b, (127 <? Byte.to_N b)%N) data in
  if negb hasHighByte then Lib.stringOf data else "".

(** Lines 3175-3189. *)
Definition detectAndConvertEncoding (data : list byte) : string :=
  if isValidUTF8 data then Lib.stringOf data
  else
    let gbkStr := tryGBKDecode data in
    if negb (String.eqb gbkStr "") then gbkStr
    else Lib.stringOf data.

(** Lines 3192-3200. *)
Definition detectEncoding (data : list byte) : string :=
  if isValidUTF8 data then "UTF-8"
  else if negb (String.eqb (tryGBKDecode data) "") then "GBK"
  else "Unknown".

(** ** The legacy search *)

(** Lines 2236-2257: the record the loop of [searchFilesWithCache] appends
    for a path, when the path can be stat'ed. *)
Definition searchRecord (W : World) (filePath : string) : option SearchResult :=
  match osStat W filePath with
  | StatOk info =>
      Some {| Name := filepathBase W filePath; Path := filePath;
              Size := fiSize info; Modified := fiModTime info;
              Type_ := fileType W filePath (fiIsDir info);
              IsDir := fiIsDir info |}
  | _ => None
  end.

(** Lines 2282-2285. *)
Definition searchFilesOptimized (W : World) (tGet tPut : Z) (query : string)
    (page pageSize : Z) (st : ServerState)
    : outcome (list SearchResult * Z) * ServerState :=
  let '(r, st) := searchFilesWithCache W tGet tPut query page pageSize st in
  (match r with
   | Returned (results, totalCount, _) => Returned (results, totalCount)
   | Failed err => Failed err
   | Panicked => Panicked
   end, st).

(** Lines 2288-2291. *)
Definition searchFiles (W : World) (tGet tPut : Z) (query : string)
    (st : ServerState) : outcome (list SearchResult) * ServerState :=
  let '(r, st) := searchFilesOptimized W tGet tPut query 1 999999 st in
  (match r with
   | Returned (results, _) => Returned results
   | Failed err => Failed err
   | Panicked => Panicked
   end, st).

Inductive LegacyReply :=
  | LegacyRedirect (url : string) (code : Z)
  | LegacyError (code : Z) (message : string)
  | LegacyJSON (results : list SearchResult) (count : Z) (query : string)
  | LegacyAborted.

(** Lines 2594-2614.  [LegacyJSON] carries the values handed to the
    encoder of line 2609. *)
Definition searchHandler (W : World) (tGet tPut : Z) (query : string)
    (st : ServerState) : LegacyReply * ServerState :=
  if String.eqb query "" then (LegacyRedirect "/" 303, st)
  else
    let '(r, st) := searchFiles W tGet tPut query st in
    match r with
    | Failed err =>
        (LegacyError Http.StatusInternalServerError ("搜索失败: " +:+ err), st)
    | Returned results =>
        (LegacyJSON results (Z.of_nat (length results)) query, st)
    | Panicked => (LegacyAborted, st)
    end.

(** ** [videoPlayerHandler] *)

(** Which of the four page generators is called; the HTML they write is
    not modelled. *)
Inductive PlayerKind :=
  | TranscodePlayer       (* generateTranscodeVideoPlayer *)
  | IncompatiblePlayer    (* generateIncompatibleVideoPlayer *)
  | CompatiblePlayer      (* generateCompatibleVideoPlayer *)
  | FallbackPlayer.       (* generateCompatibleVideoPlayerWithFallback *)

(** The answer: an error of [http.Error], or a page with the arguments its
    generator gets (all but [fileSizeMB], a [float64]). *)
Inductive VideoReply :=
  | VideoError (code : Z) (message : string)
  | VideoPage (kind : PlayerKind) (filePath fileName ext : string)
      (muteByDefault : bool) (accessSource : string).

(** Lines 1258-1270. *)
Definition videoPlayerHandler_filePath (urlPath : string) : string :=
  toWindowsPath (unescapeLoop 3 (Strings.from 7 urlPath)).

(** Lines 1277-1283: the request comes from the search page. *)
Definition fromSearchPage (referer host : string) : bool :=
  negb (String.eqb referer "")
  && (Strings.Contains referer host
      && (Strings.Contains referer "/?" || Strings.Contains referer "/search"
          || String.eqb referer ("http://" +:+ host +:+ "/")
          || String.eqb referer ("https://" +:+ host +:+ "/"))).

(** Lines 1327-1328. *)
Definition webCompatibleFormats : list string := [".mp4"; ".webm"; ".mkv"; ".wmv"].
Definition needTranscodeFormats : list string := [".avi"; ".flv"].

(** Lines 1257-1364. *)
Definition videoPlayerHandler (W : World) (urlPath referer host : string)
    (st : ServerState) : VideoReply :=
  let filePath := videoPlayerHandler_filePath urlPath in
  let muteByDefault := negb (fromSearchPage referer host) in
  let accessSource :=
    if fromSearchPage referer host then "搜索页面" else "直接访问" in
  match osStat W filePath with
  | StatNotExist => VideoError Http.StatusNotFound "视频文件不存在"
  | StatFailed err =>
      VideoError Http.StatusInternalServerError ("访问文件失败: " +:+ err)
  | StatOk fileInfo =>
      let ext := lowerExt W filePath in
      if negb (oneOf ext videoExts) then
        VideoError Http.StatusBadRequest "不是视频文件"
      else
        let fileName := filepathBase W filePath in
        let isWebCompatible := oneOf ext webCompatibleFormats in
        let needTranscode := oneOf ext needTranscodeFormats in
        let page kind :=
          VideoPage kind filePath fileName ext muteByDefault accessSource in
        if needTranscode then
          (if ffmpegAvailable st then page TranscodePlayer
           else page IncompatiblePlayer)
        else if isWebCompatible then page CompatiblePlayer
        else page FallbackPlayer
  end.

(** ** The other path-carrying handlers *)

(** Lines 2548-2560. *)
Definition thumbnailHandler_filePath (urlPath : string) : string :=
  toWindowsPath (unescapeLoop 3 (Strings.from 11 urlPath)).

(** Lines 3232-3244. *)
Definition imageViewerHandler_filePath (urlPath : string) : string :=
  toWindowsPath (unescapeLoop 3 (Strings.from 11 urlPath)).

(** Lines 3434-3446. *)
Definition textViewerHandler_filePath (urlPath : string) : string :=
  toWindowsPath (unescapeLoop 3 (Strings.from 10 urlPath)).

(** ** [textPreviewHandler] *)

Record TextPreview := mkTextPreview {
  tpPath : string;
  tpName : string;
  tpSize : Z;
  tpModified : string;
  tpContent : string;
  tpLines : Z;
  tpEncoding : string }.

Inductive PreviewReply :=
  | PreviewError (code : Z) (message : string)
  | PreviewJSON (response : TextPreview).

Definition maxFileSize : Z := 10 * 1024 * 1024.

Definition lineFeed : ascii := "010".

(** Line 3171: the document [json.NewEncoder(w).Encode(response)] writes,
    by the values of its fields as a reader decodes them. *)
Definition encodeTextPreview (response : TextPreview) : TextPreview :=
  {| tpPath := Json.text (tpPath response);
     tpName := Json.text (tpName response);
     tpSize := tpSize response;
     tpModified := Json.text (tpModified response);
     tpContent := Json.text (tpContent response);
     tpLines := tpLines response;
     tpEncoding := Json.text (tpEncoding response) |}.

(** Lines 3113-3172.  [osReadFile] is [os.ReadFile]: the content, or the
    text of the error.  [PreviewJSON] carries the document that is
    written. *)
Definition textPreviewHandler (W : World)
    (osReadFile : string → list byte + string) (filePath : string)
    : PreviewReply :=
  if String.eqb filePath "" then
    PreviewError Http.StatusBadRequest "路径参数不能为空"
  else
    match osStat W filePath with
    | StatNotExist => PreviewError Http.StatusNotFound "文件不存在"
    | StatFailed err =>
        PreviewError Http.StatusInternalServerError ("访问文件失败: " +:+ err)
    | StatOk fileInfo =>
        if fiIsDir fileInfo then
          PreviewError Http.StatusBadRequest "不能预览文件夹"
        else if maxFileSize <? fiSize fileInfo then
          PreviewError Http.StatusBadRequest "文件过大，无法预览"
        else
          match osReadFile filePath with
          | inr err =>
              PreviewError Http.StatusInternalServerError
                ("读取文件失败: " +:+ err)
          | inl content =>
              let contentStr := detectAndConvertEncoding content in
              let response :=
                {| tpPath := filePath;
                   tpName := filepathBase W filePath;
                   tpSize := fiSize fileInfo;
                   tpModified := fiModTime fileInfo;
                   tpContent := contentStr;
                   tpLines :=
                     Z.of_nat (length (Strings.Split contentStr lineFeed));
                   tpEncoding := detectEncoding content |} in
              PreviewJSON (encodeTextPreview response)
          end
    end.

(** ** More worlds for the examples *)

(** A world with one AVI file and nothing else. *)
Definition worldOneAvi : World :=
  {| everythingSDK := λ _, inl ["C:\v\a.avi"];
     esExe := λ _, inl ["C:\v\a.avi"];
     osStat := λ p, if String.eqb p "C:\v\a.avi" then
                      StatOk {| fiSize := 1000;
                                fiModTime := "2024-01-01 00:00:00";
                                fiIsDir := false |}
                    else StatNotExist;
     osOpen := λ p, if String.eqb p "C:\v\a.avi" then Some file1000 else None;
     filepathBase := λ _, "a.avi";
     lowerExt := λ _, ".avi";
     cmdRun := λ _ _, true;
     cmdStart := λ _ _, Some [];
     cmdStderrPipe := λ _ _, true |}.

(** A text file for the examples: two lines, the second without its
    newline. *)
Definition twoLines : list byte := list_byte_of_string ("ab" +:+ String lineFeed "cd").

(** A world with one small text file. *)
Definition worldOneText : World :=
  {| everythingSDK := λ _, inl ["C:\notes.txt"];
     esExe := λ _, inl ["C:\notes.txt"];
     osStat := λ _, StatOk {| fiSize := 5; fiModTime := "2024-01-01 00:00:00";
                              fiIsDir := false |};
     osOpen := λ _, Some twoLines;
     filepathBase := λ _, "notes.txt";
     lowerExt := λ _, ".txt";
     cmdRun := λ _ _, true;
     cmdStart := λ _ _, Some [];
     cmdStderrPipe := λ _ _, true |}.



(** ** The commands behind the events *)

(** The command line an event stands for: [searchWithESExe] runs
    [exec.Command("./es.exe", query).Output()] (lines 213-214), the probe
    and the transcoder are [exec.Command]s of their own; the call of the DLL
    runs no command. *)
Definition commandOf (e : event) : option (string * list string) :=
  match e with
  | CallSDK _ => None
  | CallESExe query => Some ("./es.exe", [query])
  | CmdRun name args => Some (name, args)
  | CmdStart name args => Some (name, args)
  | CmdStartFailed name args => Some (name, args)
  end.





(** A world in which ffmpeg is installed and no pipe can be made. *)
Definition worldNoPipe : World :=
  {| everythingSDK := λ _, inl fivePaths;
     esExe := λ _, inl fivePaths;
     osStat := λ _, StatOk {| fiSize := 1; fiModTime := "2024-01-01 00:00:00";
                              fiIsDir := false |};
     osOpen := λ _, Some file1000;
     filepathBase := λ p, p;
     lowerExt := λ _, ".avi";
     cmdRun := λ _ _, true;
     cmdStart := λ _ _, Some [];
     cmdStderrPipe := λ _ _, false |}.

(** A file in GBK: two Chinese characters and a line feed. *)
Definition gbkBytes : list byte := [xd6; xd0; xce; xc4; x0a].
(** * Properties of the library models *)

(** Side conditions that a value lies in the range of [int64]. *)
Ltac solve_int64 := unfold minInt64, maxInt64 in *; lia.

Lemma wrap64_id (z : Z) : minInt64 ≤ z ≤ maxInt64 → wrap64 z = z.
Proof.
  unfold wrap64, minInt64, maxInt64. intros Hz.
  rewrite Z.mod_small; lia.
Qed.

Lemma wrap64_range (z : Z) : minInt64 ≤ wrap64 z ≤ maxInt64.
Proof.
  unfold wrap64, minInt64, maxInt64.
  pose proof (Z.mod_pos_bound (z + 2 ^ 63) (2 ^ 64) eq_refl). lia.
Qed.

Section StringFacts.

Import Strings.

Lemma Split_without_sep (s : string) (sep : ascii) :
  ContainsByte s sep = false → Split s sep = [s].
Proof.
  induction s as [|c s IH]; simpl; [done|].
  destruct (Ascii.eqb c sep); simpl; [done|].
  intros Hs. by rewrite IH.
Qed.

Lemma Split_at_first_sep (s rest : string) (sep : ascii) :
  ContainsByte s sep = false →
  Split (s +:+ String sep rest) sep = s :: Split rest sep.
Proof.
  induction s as [|c s IH]; simpl.
  - intros _. by rewrite Ascii.eqb_refl.
  - destruct (Ascii.eqb c sep); simpl; [done|].
    intros Hs. by rewrite IH.
Qed.

Lemma Split_two (s e : string) (sep : ascii) :
  ContainsByte s sep = false → ContainsByte e sep = false →
  Split (s +:+ String sep e) sep = [s; e].
Proof.
  intros Hs He. by rewrite Split_at_first_sep, Split_without_sep.
Qed.

(** A byte other than the separator that occurs in [s] occurs in one of
    the pieces. *)
Lemma Split_keeps_byte (s : string) (sep c : ascii) :
  c ≠ sep → ContainsByte s c = true →
  ∃ piece, piece ∈ Split s sep ∧ ContainsByte piece c = true.
Proof.
  intros Hne. induction s as [|d s IH]; simpl; [done|].
  destruct (Ascii.eqb d c) eqn:Hdc; simpl.
  - intros _. apply Ascii.eqb_eq in Hdc as ->.
    destruct (Ascii.eqb c sep) eqn:Hcs; [by apply Ascii.eqb_eq in Hcs|].
    destruct (Split s sep) as [|piece pieces].
    + exists (String c ""). split; [apply list_elem_of_here|].
      simpl. by rewrite Ascii.eqb_refl.
    + exists (String c piece). split; [apply list_elem_of_here|].
      simpl. by rewrite Ascii.eqb_refl.
  - intros Hs. destruct (IH Hs) as (piece & Hin & Hc).
    destruct (Ascii.eqb d sep).
    + exists piece. split; [by apply list_elem_of_further|done].
    + destruct (Split s sep) as [|p ps]; [by apply elem_of_nil in Hin|].
      apply elem_of_cons in Hin as [->|Hin].
      * exists (String d p). split; [apply list_elem_of_here|].
        simpl. by rewrite Hdc.
      * exists piece. split; [by apply list_elem_of_further|done].
Qed.


Lemma HasPrefix_split (s prefix : string) :
  HasPrefix s prefix = true → s = prefix +:+ from (String.length prefix) s.
Proof.
  revert s. induction prefix as [|p prefix IH]; intros [|c s]; simpl; try done.
  intros [Hpc Hs]%andb_prop. apply Ascii.eqb_eq in Hpc as ->.
  change (String c s = String c (prefix +:+ from (String.length prefix) s)).
  f_equal. by apply IH.
Qed.

Lemma ContainsByte_app (s t : string) (c : ascii) :
  ContainsByte (s +:+ t) c = ContainsByte s c || ContainsByte t c.
Proof.
  induction s as [|d s IH]; simpl; [done|]. by rewrite IH, orb_assoc.
Qed.

End StringFacts.

Section ParseFacts.

Import Strconv.

Lemma isDigit_val (c : ascii) : isDigit c = true → 0 ≤ digitVal c ≤ 9.
Proof.
  unfold isDigit, digitVal.
  intros [H1 H2]%andb_prop. apply N.leb_le in H1, H2. lia.
Qed.

Lemma parseDigits_ge (s : string) (acc v : Z) :
  0 ≤ acc → parseDigits acc s = Some v → acc ≤ v.
Proof.
  revert acc. induction s as [|c s IH]; simpl; intros acc Hacc.
  - intros [= ->]. lia.
  - destruct (isDigit c) eqn:Hc; [|done].
    apply isDigit_val in Hc. intros Hv%IH; lia.
Qed.

Lemma parseDigits_rejects (s : string) (c : ascii) (acc : Z) :
  isDigit c = false → Strings.ContainsByte s c = true →
  parseDigits acc s = None.
Proof.
  intros Hc. revert acc. induction s as [|d s IH]; simpl; [done|]; intros acc.
  destruct (Ascii.eqb d c) eqn:Hdc; simpl.
  - intros _. apply Ascii.eqb_eq in Hdc as ->. by rewrite Hc.
  - intros Hs. destruct (isDigit d); [by apply IH|done].
Qed.

Lemma ParseUint_rejects (s : string) (c : ascii) :
  isDigit c = false → Strings.ContainsByte s c = true → ParseUint s = None.
Proof.
  intros Hc Hs. destruct s as [|d s]; [done|].
  by apply parseDigits_rejects with c.
Qed.

(** A part that contains a comma never parses. *)
Lemma ParseInt_rejects_comma (s : string) :
  Strings.ContainsByte s "," = true → ParseInt s = None.
Proof.
  destruct s as [|c s]; [done|]. unfold ParseInt.
  destruct (Ascii.eqb c "+" || Ascii.eqb c "-") eqn:Hsign.
  - intros Hs. simpl in Hs.
    destruct (Ascii.eqb c ",") eqn:Hc.
    + apply Ascii.eqb_eq in Hc as ->. done.
    + simpl in Hs. by rewrite (ParseUint_rejects s ",").
  - intros Hs. by rewrite (ParseUint_rejects (String c s) ",").
Qed.

Lemma ParseInt_int64 (s : string) (v : Z) :
  ParseInt s = Some v → inInt64 v.
Proof.
  destruct s as [|c s]; [done|]. unfold ParseInt, inInt64, minInt64, maxInt64.
  set (digits := if Ascii.eqb c "+" || Ascii.eqb c "-" then s else String c s).
  destruct (ParseUint digits) as [un|] eqn:Hun; [|done].
  assert (0 ≤ un).
  { destruct digits; [done|]. by apply parseDigits_ge in Hun. }
  destruct (Ascii.eqb c "-").
  - destruct (2 ^ 63 <? un) eqn:Hlt; [done|]. intros [= <-].
    apply Z.ltb_ge in Hlt. lia.
  - destruct (2 ^ 63 <=? un) eqn:Hle; [done|]. intros [= <-].
    apply Z.leb_gt in Hle. lia.
Qed.

(** A part without a minus sign parses to a non-negative number. *)
Lemma ParseInt_nonneg (s : string) (v : Z) :
  Strings.ContainsByte s "-" = false → ParseInt s = Some v → 0 ≤ v.
Proof.
  destruct s as [|c s]; [done|]. simpl Strings.ContainsByte.
  intros [Hc Hs]%orb_false_elim. unfold ParseInt. rewrite Hc.
  set (digits := if Ascii.eqb c "+" || false then s else String c s).
  destruct (ParseUint digits) as [un|] eqn:Hun; [|done].
  assert (0 ≤ un).
  { destruct digits; [done|]. by apply parseDigits_ge in Hun. }
  destruct (2 ^ 63 <=? un); [done|]. by intros [= <-].
Qed.

Lemma ParseInt_nonempty (s : string) (v : Z) :
  ParseInt s = Some v → String.eqb s "" = false.
Proof. by destruct s. Qed.

End ParseFacts.

(** * Range delivery *)

Lemma serveRange_single_range (w : Http.Response) (s e : string)
    (file : list byte) (fileSize : Z) (ct : string) :
  noDash s → noDash e →
  serveRange w ("bytes=" +:+ s +:+ "-" +:+ e) file fileSize ct =
    match parseStart s with
    | None => rangeNotSatisfiable w
    | Some start =>
        match parseEnd e fileSize with
        | None => rangeNotSatisfiable w
        | Some end_ => respondRange w start end_ file fileSize ct
        end
    end.
Proof.
  intros Hs He. unfold serveRange.
  change (Strings.HasPrefix ("bytes=" +:+ s +:+ "-" +:+ e) "bytes=") with true.
  change (Strings.from 6 ("bytes=" +:+ s +:+ "-" +:+ e))
    with (s +:+ String "-" e).
  cbv beta iota zeta delta [negb].
  by rewrite Split_two.
Qed.

Lemma seekCopyN_length (file : list byte) (start n : Z) :
  0 ≤ start → 0 ≤ n → start + n ≤ Z.of_nat (length file) →
  Z.of_nat (length (seekCopyN file start n)) = n.
Proof.
  intros Hs Hn Hlen. unfold seekCopyN.
  rewrite length_take, length_drop. lia.
Qed.

(** What [respondRange] sends for a range that passes its test. *)
Lemma respondRange_ok (w : Http.Response) (start end_ : Z)
    (file : list byte) (fileSize : Z) (ct : string) :
  start ≤ end_ → start < fileSize →
  let r := respondRange w start end_ file fileSize ct in
  let contentLength := wrap64 (wrap64 (end_ - start) + 1) in
  Http.status r = 206 ∧
  Http.header r !! "Content-Range" =
    Some ("bytes " +:+ Strconv.FormatInt start +:+ "-" +:+ Strconv.FormatInt end_
          +:+ "/" +:+ Strconv.FormatInt fileSize) ∧
  Http.header r !! "Content-Length" = Some (Strconv.FormatInt contentLength) ∧
  Http.header r !! "Accept-Ranges" = Some "bytes" ∧
  Http.body r = Http.body w ++ seekCopyN file start contentLength.
Proof.
  intros Hle Hlt. unfold respondRange.
  destruct (end_ <? start) eqn:E1; [apply Z.ltb_lt in E1; lia|].
  destruct (fileSize <=? start) eqn:E2; [apply Z.leb_le in E2; lia|].
  cbn. repeat split.
  - rewrite !lookup_insert_ne by done. by rewrite lookup_insert_eq.
  - rewrite lookup_insert_ne by done. by rewrite lookup_insert_eq.
  - by rewrite lookup_insert_eq.
Qed.

(** Inside the file, a single range is answered with partial content: the
    four facts of the 206 answer and a body of exactly [end - start + 1]
    bytes taken at offset [start]. *)
Lemma serveRange_partial_content (s e : string) (start end_ : Z)
    (file : list byte) (fileSize : Z) (ct : string) :
  fileSize = Z.of_nat (length file) → fileSize ≤ maxInt64 →
  noDash s → noDash e →
  Strconv.ParseInt s = Some start →
  (e = "" ∧ end_ = fileSize - 1) ∨ Strconv.ParseInt e = Some end_ →
  start ≤ end_ → start < fileSize → end_ < fileSize →
  let r := serveRange Http.fresh ("bytes=" +:+ s +:+ "-" +:+ e) file fileSize ct in
  Http.status r = 206 ∧
  Http.header r !! "Content-Range" =
    Some ("bytes " +:+ Strconv.FormatInt start +:+ "-" +:+ Strconv.FormatInt end_
          +:+ "/" +:+ Strconv.FormatInt fileSize) ∧
  Http.header r !! "Content-Length" = Some (Strconv.FormatInt (end_ - start + 1)) ∧
  Http.header r !! "Accept-Ranges" = Some "bytes" ∧
  Http.body r = take (Z.to_nat (end_ - start + 1)) (drop (Z.to_nat start) file) ∧
  Z.of_nat (length (Http.body r)) = end_ - start + 1.
Proof.
  intros Hsize Hmax Hs He Hstart Hend Hle Hlt Hin r. subst r.
  pose proof (ParseInt_nonneg _ _ Hs Hstart) as H0.
  rewrite serveRange_single_range by done.
  unfold parseStart. rewrite (ParseInt_nonempty _ _ Hstart), Hstart.
  assert (parseEnd e fileSize = Some end_) as ->.
  { unfold parseEnd. destruct Hend as [[-> ->]|Hend].
    - simpl. f_equal. apply wrap64_id. solve_int64.
    - by rewrite (ParseInt_nonempty _ _ Hend). }
  unfold respondRange.
  destruct (end_ <? start) eqn:E1; [apply Z.ltb_lt in E1; lia|].
  destruct (fileSize <=? start) eqn:E2; [apply Z.leb_le in E2; lia|].
  cbv beta iota zeta delta [orb].
  rewrite (wrap64_id (end_ - start)) by solve_int64.
  rewrite wrap64_id by solve_int64.
  repeat split; try done.
  simpl. apply seekCopyN_length; lia.
Qed.

(** The example of the range tests: the tail of a 1000-byte file. *)
Example serveRange_tail_of_1000 :
  let r := serveRange Http.fresh "bytes=500-" file1000 1000 "video/mp4" in
  Http.status r = 206 ∧
  Http.header r !! "Content-Range" = Some "bytes 500-999/1000" ∧
  Http.header r !! "Content-Length" = Some "500" ∧
  Http.header r !! "Accept-Ranges" = Some "bytes" ∧
  length (Http.body r) = 500%nat.
Proof. vm_compute. by repeat split. Qed.

(** Claim C1, at the input where the code departs from it.  The header
    [bytes=0-5000] on a 1000-byte file has [start <= end] and
    [start < fileSize]; [serveRange] answers 206 and announces
    [Content-Range: bytes 0-5000/1000] and [Content-Length: 5001], yet the
    body holds the 1000 bytes of the file and not [end - start + 1 = 5001]:
    [end] is never cut down to the last byte of the file. *)
Theorem serveRange_end_beyond_file :
  let r := serveRange Http.fresh "bytes=0-5000" file1000 1000 "video/mp4" in
  Strconv.ParseInt "0" = Some 0 ∧ Strconv.ParseInt "5000" = Some 5000 ∧
  Http.status r = 206 ∧
  Http.header r !! "Content-Range" = Some "bytes 0-5000/1000" ∧
  Http.header r !! "Content-Length" = Some "5001" ∧
  Z.of_nat (length (Http.body r)) = 1000 ∧
  Z.of_nat (length (Http.body r)) ≠ 5000 - 0 + 1.
Proof. vm_compute. by repeat split. Qed.

(** The refusals of [serveRange] carry the error line as their body. *)
Lemma rangeNotSatisfiable_facts (w : Http.Response) :
  Http.status (rangeNotSatisfiable w) = 416 ∧
  Http.body (rangeNotSatisfiable w) = Http.body w ++ Http.errorLine msgInvalidRange.
Proof. done. Qed.

Lemma serveRange_comma (w : Http.Response) (h : string)
    (file : list byte) (fileSize : Z) (ct : string) :
  Strings.ContainsByte h "," = true →
  serveRange w h file fileSize ct = rangeNotSatisfiable w.
Proof.
  intros Hcomma. unfold serveRange.
  destruct (Strings.HasPrefix h "bytes=") eqn:Hpre; [|done].
  cbv beta iota zeta delta [negb].
  apply HasPrefix_split in Hpre. rewrite Hpre, ContainsByte_app in Hcomma.
  change (Strings.ContainsByte "bytes=" ",") with false in Hcomma.
  change (String.length "bytes=") with 6%nat in Hcomma.
  apply (Split_keeps_byte _ "-") in Hcomma as (piece & Hin & Hpiece); [|done].
  assert (parseStart piece = None ∧ ∀ fs, parseEnd piece fs = None) as [Hps Hpe].
  { unfold parseStart, parseEnd. destruct piece as [|c piece]; [done|].
    by rewrite ParseInt_rejects_comma. }
  destruct (Strings.Split _ _) as [|p0 [|p1 [|p2 ps]]]; try done.
  apply elem_of_cons in Hin as [<-|Hin]; [by rewrite Hps|].
  apply list_elem_of_singleton in Hin as <-.
  rewrite Hpe. by destruct (parseStart p0).
Qed.

(** Claim C2, the claim as stated fails: the refusal of [bytes=2000-3000] on a
    1000-byte file has status 416, and its body is not empty. *)
Lemma serveRange_416_body_not_empty :
  let r := serveRange Http.fresh "bytes=2000-3000" file1000 1000 "video/mp4" in
  Http.status r = 416 ∧ Http.body r ≠ [].
Proof. vm_compute. by split. Qed.

(** Claim C2, amended: whenever the parsed range violates [start <= end] or
    [start < fileSize], and whenever the Range header contains a comma,
    [serveRange] answers with status 416 and writes no file data: it adds to
    the body only the plain-text error line of [http.Error]. *)
Theorem serveRange_416_error_line (w : Http.Response) (h : string)
    (file : list byte) (fileSize : Z) (ct : string) :
  (∃ s e start end_,
      h = "bytes=" +:+ s +:+ "-" +:+ e ∧ noDash s ∧ noDash e ∧
      parseStart s = Some start ∧ parseEnd e fileSize = Some end_ ∧
      (end_ < start ∨ fileSize ≤ start))
  ∨ Strings.ContainsByte h "," = true →
  let r := serveRange w h file fileSize ct in
  Http.status r = 416 ∧
  Http.body r = Http.body w ++ Http.errorLine msgInvalidRange.
Proof.
  intros [(s & e & start & end_ & -> & Hs & He & Hstart & Hend & Hbad)|Hcomma] r;
    subst r.
  - rewrite serveRange_single_range, Hstart, Hend by done.
    unfold respondRange.
    assert ((end_ <? start) || (fileSize <=? start) = true) as ->; [|done].
    apply orb_true_iff. destruct Hbad; [left; by apply Z.ltb_lt|right; by apply Z.leb_le].
  - rewrite serveRange_comma by done. apply rangeNotSatisfiable_facts.
Qed.

Lemma serveRange_416_error_line_witness :
  let r := serveRange Http.fresh "bytes=2000-3000" file1000 1000 "video/mp4" in
  Http.status r = 416 ∧ Http.body r = [] ++ Http.errorLine msgInvalidRange.
Proof.
  apply (serveRange_416_error_line Http.fresh "bytes=2000-3000" file1000 1000).
  left. exists "2000", "3000", 2000, 3000.
  repeat split; try reflexivity. right. lia.
Defined.






(** * The query cache *)

Lemma Since_fresh (now t : Z) :
  (Since now t <? cacheExpiry) = (now - t <? cacheExpiry).
Proof.
  unfold Since, saturate64, cacheExpiry, Minute, minInt64, maxInt64.
  destruct (Z.ltb_spec (now - t) (10 * (60 * 1000000000)));
    [apply Z.ltb_lt|apply Z.ltb_ge]; lia.
Qed.

Lemma Since_stale (now t : Z) :
  (cacheExpiry <? Since now t) = (cacheExpiry <? now - t).
Proof.
  unfold Since, saturate64, cacheExpiry, Minute, minInt64, maxInt64.
  destruct (Z.ltb_spec (10 * (60 * 1000000000)) (now - t));
    [apply Z.ltb_lt|apply Z.ltb_ge]; lia.
Qed.

Lemma cacheGet_cachePut (st : ServerState) (q : string) (P : list string)
    (t0 now : Z) :
  cacheGet (cachePut q P t0 st) q now =
    if now - t0 <? cacheExpiry then Some P else None.
Proof.
  unfold cacheGet, cachePut. simpl.
  by rewrite lookup_insert_eq, Since_fresh.
Qed.

(** Claim C5: after [Put(q, P)] at time [t0], every [Get(q)] at an age below the
    TTL is a hit that returns [P] itself, however many reads are made, and
    a [Get(q)] at an age of the TTL or more is a miss. *)
Theorem cache_get_after_put (st : ServerState) (q : string)
    (P : list string) (t0 : Z) :
  let st' := cachePut q P t0 st in
  (∀ now, now - t0 < cacheExpiry → cacheGet st' q now = Some P) ∧
  (∀ nows : list Z, Forall (λ now, now - t0 < cacheExpiry) nows →
     Forall (λ now, cacheGet st' q now = Some P) nows) ∧
  (∀ now, cacheExpiry ≤ now - t0 → cacheGet st' q now = None).
Proof.
  intros st'. subst st'.
  assert (∀ now, now - t0 < cacheExpiry →
                 cacheGet (cachePut q P t0 st) q now = Some P) as Hhit.
  { intros now Hage. rewrite cacheGet_cachePut.
    by apply Z.ltb_lt in Hage as ->. }
  repeat split; [done| |].
  - intros nows Hnows. eapply Forall_impl; [exact Hnows|]. exact Hhit.
  - intros now Hage. rewrite cacheGet_cachePut.
    by apply Z.ltb_ge in Hage as ->.
Qed.

Lemma cache_get_after_put_witness :
  cacheGet (cachePut "video" fivePaths 0 initialState) "video" (cacheExpiry - 1)
    = Some fivePaths ∧
  Forall (λ now, cacheGet (cachePut "video" fivePaths 0 initialState) "video" now
                 = Some fivePaths) [1; 2; 599999999999] ∧
  cacheGet (cachePut "video" fivePaths 0 initialState) "video" cacheExpiry = None.
Proof.
  destruct (cache_get_after_put initialState "video" fivePaths 0)
    as (Hhit & Hmany & Hmiss).
  split; [|split].
  - apply Hhit. vm_compute. reflexivity.
  - apply Hmany. repeat constructor.
  - apply Hmiss. vm_compute. discriminate.
Defined.

Lemma searchFilesWithCache_hit (W : World) (tGet tPut : Z) (q : string)
    (page pageSize : Z) (st : ServerState) (P : list string) :
  cacheGet st q tGet = Some P →
  searchFilesWithCache W tGet tPut q page pageSize st =
    (paginate W P page pageSize true, st).
Proof. intros Hget. unfold searchFilesWithCache. by rewrite Hget. Qed.

Lemma searchRepeatedly_hits (W : World) (q : string) (P : list string)
    (t0 : Z) (st0 : ServerState) (calls : list (Z * Z * Z * Z)) :
  Forall (λ call, call.1.1.1 - t0 < cacheExpiry) calls →
  searchRepeatedly W q calls (cachePut q P t0 st0) = cachePut q P t0 st0.
Proof.
  induction calls as [|[[[tGet tPut] page] pageSize] calls IH]; [done|].
  intros [Hage Hcalls]%Forall_cons. simpl in *.
  rewrite (searchFilesWithCache_hit _ _ _ _ _ _ _ P).
  - by apply IH.
  - rewrite cacheGet_cachePut. by apply Z.ltb_lt in Hage as ->.
Qed.

(** Claim C9: a cache hit only reads.  A call of [searchFilesWithCache] that
    hits leaves the whole state as it was (the entry, every other entry,
    and no backend is called); so after a [Put] at [t0] and any number of
    hits, the entry is still fresh exactly at the ages below the TTL: a
    read never renews its timestamp. *)
Theorem cache_hit_reads_only (W : World) (q : string) (P : list string) :
  (∀ st tGet tPut page pageSize,
     cacheGet st q tGet = Some P →
     snd (searchFilesWithCache W tGet tPut q page pageSize st) = st) ∧
  (∀ st0 t0 calls now,
     Forall (λ call, call.1.1.1 - t0 < cacheExpiry) calls →
     let st' := searchRepeatedly W q calls (cachePut q P t0 st0) in
     st' = cachePut q P t0 st0 ∧
     searchCache st' !! q = Some {| Paths := P; Timestamp := t0 |} ∧
     (cacheGet st' q now = Some P ↔ now - t0 < cacheExpiry)).
Proof.
  split.
  - intros st tGet tPut page pageSize Hget.
    by rewrite (searchFilesWithCache_hit _ _ _ _ _ _ _ P).
  - intros st0 t0 calls now Hcalls st'. subst st'.
    rewrite searchRepeatedly_hits by done.
    split; [done|]. split; [apply lookup_insert_eq|].
    rewrite cacheGet_cachePut.
    destruct (Z.ltb_spec (now - t0) cacheExpiry); split; (done || lia).
Qed.

Lemma cache_hit_reads_only_witness :
  snd (searchFilesWithCache worldFiles 5 6 "video" 2 2 seededState) = seededState ∧
  searchRepeatedly worldFiles "video" [(5, 6, 1, 2); (7, 8, 2, 2)] seededState
    = seededState.
Proof.
  destruct (cache_hit_reads_only worldFiles "video" fivePaths) as [Hone Hmany].
  split.
  - apply Hone. reflexivity.
  - apply (Hmany initialState 0 [(5, 6, 1, 2); (7, 8, 2, 2)] 0).
    repeat constructor.
Defined.

(** * The sweep *)

Section Sweep.

Variable now : Z.

(** The sweep only deletes. *)
Lemma sweep_fold_sub (l : list (string * SearchCache))
    (m : gmap string SearchCache) (q : string) (c : SearchCache) :
  foldr (sweepEntry now) m l !! q = Some c → m !! q = Some c.
Proof.
  induction l as [|[k c'] l IH]; simpl; [done|].
  destruct (stale now c'); [|done].
  intros [_ Hq]%lookup_delete_Some. by apply IH.
Qed.

Lemma sweep_fold_removes (l : list (string * SearchCache))
    (m : gmap string SearchCache) (q : string) (c : SearchCache) :
  (q, c) ∈ l → stale now c = true → foldr (sweepEntry now) m l !! q = None.
Proof.
  intros Hin Hstale. induction l as [|[k c'] l IH]; [by apply elem_of_nil in Hin|].
  simpl.
  apply elem_of_cons in Hin as [[= <- <-]|Hin].
  - rewrite Hstale. apply lookup_delete_eq.
  - specialize (IH Hin). destruct (stale now c'); [|done].
    apply lookup_delete_None. by right.
Qed.

Lemma sweep_fold_keeps (l : list (string * SearchCache))
    (m : gmap string SearchCache) (q : string) :
  (∀ c, (q, c) ∈ l → stale now c = false) →
  foldr (sweepEntry now) m l !! q = m !! q.
Proof.
  induction l as [|[k c'] l IH]; simpl; [done|]. intros Hfresh.
  destruct (stale now c') eqn:Hc'.
  - destruct (decide (k = q)) as [->|Hne].
    + rewrite (Hfresh c') in Hc'; [done|apply list_elem_of_here].
    + rewrite lookup_delete_ne by done. apply IH.
      intros c Hin. apply Hfresh. by apply list_elem_of_further.
  - apply IH. intros c Hin. apply Hfresh. by apply list_elem_of_further.
Qed.

(** What one run of the sweep leaves: the entries whose age is at most
    the TTL. *)
Lemma cleanExpiredCache_lookup (st : ServerState) (q : string) :
  searchCache (cleanExpiredCache now st) !! q =
    match searchCache st !! q with
    | Some c => if cacheExpiry <? now - Timestamp c then None else Some c
    | None => None
    end.
Proof.
  unfold cleanExpiredCache. simpl.
  destruct (searchCache st !! q) as [c|] eqn:Hq.
  - rewrite <- Since_stale.
    change (cacheExpiry <? Since now (Timestamp c)) with (stale now c).
    destruct (stale now c) eqn:Hc.
    + apply sweep_fold_removes with c; [|done]. by apply elem_of_map_to_list.
    + rewrite sweep_fold_keeps; [done|].
      intros c' Hin%elem_of_map_to_list. congruence.
  - destruct (foldr _ _ _ !! q) as [c|] eqn:Hs; [|done].
    apply sweep_fold_sub in Hs. congruence.
Qed.

End Sweep.

(** Claim C6, at the input where the code departs from it.  An entry stored at
    time 0 has, at time [cacheExpiry], an age equal to the TTL: the read of
    the cache treats it as expired, and one run of the sweep at that time
    leaves it in the map, since the sweep deletes only at an age above the
    TTL. *)
Theorem sweep_keeps_entry_at_ttl :
  cacheExpiry ≤ cacheExpiry - 0 ∧
  cacheGet seededState "video" cacheExpiry = None ∧
  searchCache (cleanExpiredCache cacheExpiry seededState) !! "video" =
    Some {| Paths := fivePaths; Timestamp := 0 |} ∧
  searchCache (cleanExpiredCache (cacheExpiry + 1) seededState) !! "video" = None.
Proof.
  split; [vm_compute; discriminate|]. split; [reflexivity|].
  rewrite !cleanExpiredCache_lookup. split; reflexivity.
Qed.

(** * The backends *)

(** The order of the backends, and what is written to the cache: the SDK
    is called first, es.exe exactly when the SDK fails, and a path list from
    either is stored under the query with the time of the write. *)
Lemma searchFilesWithCache_miss (W : World) (tGet tPut : Z) (q : string)
    (page pageSize : Z) (st : ServerState) :
  cacheGet st q tGet = None →
  let '(r, st') := searchFilesWithCache W tGet tPut q page pageSize st in
  match everythingSDK W q, esExe W q with
  | inl P, _ =>
      trace st' = trace st ++ [CallSDK q] ∧
      searchCache st' = <[q := {| Paths := P; Timestamp := tPut |}]> (searchCache st) ∧
      r = paginate W P page pageSize false
  | inr _, inl P =>
      trace st' = trace st ++ [CallSDK q; CallESExe q] ∧
      searchCache st' = <[q := {| Paths := P; Timestamp := tPut |}]> (searchCache st) ∧
      r = paginate W P page pageSize false
  | inr _, inr _ =>
      trace st' = trace st ++ [CallSDK q; CallESExe q] ∧
      searchCache st' = searchCache st ∧
      ∃ err, r = Failed err
  end.
Proof.
  intros Hmiss. unfold searchFilesWithCache. rewrite Hmiss.
  unfold searchBackends, searchWithEverythingSDK, searchWithESExe.
  destruct (everythingSDK W q) as [P|e1]; [done|].
  destruct (esExe W q) as [P|e2]; simpl; rewrite <- app_assoc; [done|].
  repeat split; eauto.
Qed.

(** Claim C7, at the input where the code departs from it.  Both backends fail:
    the SDK with its own error, es.exe with another.  The backends are
    called in order, nothing is cached, and the error that is returned
    prints the es.exe error under both labels; the text of the SDK error is
    not in it. *)
Theorem search_error_drops_sdk_error :
  let '(r, st) :=
    searchFilesWithCache worldBackendsDown 0 0 "video" 1 50 initialState in
  everythingSDK worldBackendsDown "video" = inr "Everything查询失败，错误码: 2" ∧
  trace st = [CallSDK "video"; CallESExe "video"] ∧
  searchCache st = ∅ ∧
  let err := "搜索失败 - SDK错误: 执行es.exe失败: exit status 1"
             +:+ ", es.exe错误: 执行es.exe失败: exit status 1" in
  r = Failed err ∧
  Strings.Contains err "执行es.exe失败: exit status 1" = true ∧
  Strings.Contains err "Everything查询失败，错误码: 2" = false.
Proof. vm_compute. by repeat split. Qed.

(** * Pagination *)

Lemma pageWindow_in_range (page pageSize totalCount : Z) :
  1 ≤ pageSize → 1 ≤ page → page * pageSize ≤ maxInt64 →
  let start := (page - 1) * pageSize in
  pageWindow page pageSize totalCount =
    seqZ start (Z.min pageSize (totalCount - start)) ∧
  Z.of_nat (length (pageWindow page pageSize totalCount)) =
    Z.max 0 (Z.min pageSize (totalCount - start)).
Proof.
  intros Hps Hpage Hmax start.
  assert (0 ≤ start ∧ start + pageSize ≤ maxInt64) as [H0 H1] by (subst start; nia).
  assert (pageWindow page pageSize totalCount =
            seqZ start (Z.min pageSize (totalCount - start))) as ->.
  { unfold pageWindow.
    rewrite (wrap64_id (page - 1)) by solve_int64.
    fold start.
    rewrite (wrap64_id start) by solve_int64.
    rewrite wrap64_id by solve_int64.
    destruct (Z.ltb_spec start totalCount) as [Hlt|Hge].
    - destruct (Z.ltb_spec totalCount (start + pageSize)); f_equal; lia.
    - by rewrite seqZ_nil by lia. }
  split; [done|]. rewrite length_seqZ. lia.
Qed.

Lemma totalPagesOf_ceil (totalCount pageSize : Z) :
  1 ≤ pageSize → 0 ≤ totalCount → totalCount + pageSize ≤ maxInt64 →
  let totalPages := totalPagesOf totalCount pageSize in
  totalPages = (totalCount + pageSize - 1) / pageSize ∧
  (totalPages - 1) * pageSize < totalCount ≤ totalPages * pageSize.
Proof.
  intros Hps H0 Hmax totalPages. subst totalPages. unfold totalPagesOf.
  rewrite (wrap64_id (totalCount + pageSize)) by solve_int64.
  rewrite wrap64_id by solve_int64.
  rewrite Z.quot_div_nonneg by lia. split; [done|].
  pose proof (Z.div_mod (totalCount + pageSize - 1) pageSize ltac:(lia)) as Hdm.
  pose proof (Z.mod_pos_bound (totalCount + pageSize - 1) pageSize ltac:(lia)).
  nia.
Qed.

(** Within the range of [int], the window and the page count are the ones
    of the pagination rule: the window is
    [[(page-1)*pageSize, min(totalCount, page*pageSize))], it is empty for a
    page beyond the last one, and the page count is the ceiling of
    [totalCount / pageSize]. *)
Lemma pagination_in_range (page pageSize totalCount : Z) :
  1 ≤ pageSize ≤ MaxPageSize → 1 ≤ page → page * pageSize ≤ maxInt64 →
  0 ≤ totalCount → totalCount + pageSize ≤ maxInt64 →
  let start := (page - 1) * pageSize in
  let totalPages := totalPagesOf totalCount pageSize in
  totalPages = (totalCount + pageSize - 1) / pageSize ∧
  (totalCount = 0 → totalPages = 0) ∧
  pageWindow page pageSize totalCount =
    seqZ start (Z.min totalCount (page * pageSize) - start) ∧
  (start < totalCount →
     Z.of_nat (length (pageWindow page pageSize totalCount)) =
       Z.min pageSize (totalCount - start)) ∧
  (totalPages < page → pageWindow page pageSize totalCount = []).
Proof.
  intros [Hps _] Hpage Hmax H0 Hsum start totalPages.
  destruct (totalPagesOf_ceil totalCount pageSize) as [Htp Hceil]; [done..|].
  destruct (pageWindow_in_range page pageSize totalCount) as [Hwin Hlen]; [done..|].
  fold start in Hwin, Hlen. fold totalPages in Htp, Hceil.
  split; [done|]. split; [intros ->; nia|].
  split; [rewrite Hwin; f_equal; subst start; lia|].
  split; [intros Hlt; rewrite Hlen; lia|].
  intros Hbeyond. rewrite Hwin. apply seqZ_nil. subst start. nia.
Qed.

Example pagination_scenario :
  fst (apiSearchHandler worldFiles 1 1 "video" "2" "2" seededState) =
    ReplyJSON {| Results :=
                   [ {| Name := "c"; Path := "c"; Size := 1;
                        Modified := "2024-01-01 00:00:00"; Type_ := "video";
                        IsDir := false |};
                     {| Name := "d"; Path := "d"; Size := 1;
                        Modified := "2024-01-01 00:00:00"; Type_ := "video";
                        IsDir := false |} ];
                 Count := 2; TotalCount := 5; Query := "video"; Page := 2;
                 PageSize := 2; TotalPages := 3 |}.
Proof. vm_compute. reflexivity. Qed.

(** A page number whose product with the page size wraps below zero makes
    the loop index the path list out of range: the handler panics. *)
Example page_number_panics :
  pageWindow 368934881474191033 50 5 =
    [-16; -15; -14; -13; -12; -11; -10; -9; -8; -7; -6; -5; -4; -3; -2; -1;
     0; 1; 2; 3; 4] ∧
  fst (apiSearchHandler worldFiles 1 1 "video" "368934881474191033" "" seededState)
    = ReplyAborted.
Proof. vm_compute. by split. Qed.

(** Claim C4, at the input where the code departs from it.  With five cached
    paths and [pageSize = 4] there are two pages.  The page number
    [2^62 + 1] is accepted ([page >= 1]), and [(page - 1) * pageSize] wraps
    around to 0 in the 64-bit [int]: the window is [[0, 4)] and the answer
    carries the four records of the first page, where the window of a page
    beyond [totalPages] is to be empty. *)
Theorem page_number_overflow :
  let page := 4611686018427387905 in
  let '(reply, _) :=
    apiSearchHandler worldFiles 1 1 "video" "4611686018427387905" "4" seededState in
  1 ≤ page ∧ page = 2 ^ 62 + 1 ∧
  totalPagesOf 5 4 = 2 ∧
  pageWindow page 4 5 = [0; 1; 2; 3] ∧
  ∃ response,
    reply = ReplyJSON response ∧
    Page response = page ∧ PageSize response = 4 ∧
    TotalCount response = 5 ∧ TotalPages response = 2 ∧
    map Path (Results response) = ["a"; "b"; "c"; "d"].
Proof.
  vm_compute. repeat split; try discriminate.
  eexists. repeat split.
Qed.

(** * The transcoder gate *)

Lemma searchFilesWithCache_trace (W : World) (tGet tPut : Z) (q : string)
    (page pageSize : Z) (st : ServerState) :
  let st' := snd (searchFilesWithCache W tGet tPut q page pageSize st) in
  ffmpegAvailable st' = ffmpegAvailable st ∧
  ∃ evs, trace st' = trace st ++ evs ∧
         List.filter isCmdRun evs = [] ∧ List.filter isCmdStart evs = [].
Proof.
  unfold searchFilesWithCache.
  destruct (cacheGet st q tGet) as [P|]; simpl.
  { split; [done|]. exists []. by rewrite app_nil_r. }
  unfold searchBackends, searchWithEverythingSDK, searchWithESExe.
  destruct (everythingSDK W q) as [P|e1]; simpl.
  { split; [done|]. by exists [CallSDK q]. }
  destruct (esExe W q) as [P|e2]; simpl; (split; [done|]);
    exists [CallSDK q; CallESExe q]; by rewrite <- app_assoc.
Qed.

Lemma transcodeHandler_unavailable (W : World) (urlPath : string)
    (st : ServerState) :
  ffmpegAvailable st = false →
  transcodeHandler W urlPath st =
    (Http.Error Http.fresh "ffmpeg不可用" Http.StatusServiceUnavailable, st).
Proof. intros Hoff. unfold transcodeHandler. by rewrite Hoff. Qed.

(** No handler writes [ffmpegAvailable] or runs the probe, and while the
    flag is off no handler starts a process. *)
Lemma handle_gate (W : World) (req : Request) (st : ServerState) :
  let st' := snd (handle W req st) in
  ffmpegAvailable st' = ffmpegAvailable st ∧
  ∃ evs, trace st' = trace st ++ evs ∧
         List.filter isCmdRun evs = [] ∧
         (ffmpegAvailable st = false → List.filter isCmdStart evs = []).
Proof.
  assert (∀ s : ServerState, ffmpegAvailable s = ffmpegAvailable st →
            trace s = trace st →
            ffmpegAvailable s = ffmpegAvailable st ∧
            ∃ evs, trace s = trace st ++ evs ∧ List.filter isCmdRun evs = [] ∧
              (ffmpegAvailable st = false → List.filter isCmdStart evs = []))
    as Hsame.
  { intros s Hf Ht. split; [done|]. exists []. by rewrite app_nil_r. }
  destruct req as [urlPath|urlPath rangeHeader|tGet tPut q pageStr pageSizeStr| |now];
    simpl.
  - unfold transcodeHandler.
    destruct (ffmpegAvailable st) eqn:Hflag; simpl; [|by apply Hsame].
    destruct (osStat W _); simpl; try (by apply Hsame);
      (destruct (cmdStderrPipe W _ _); simpl; [|by apply Hsame]);
      destruct (cmdStart W _ _); simpl;
      (split; [done|]; eexists [_]; by repeat split).
  - by apply Hsame.
  - unfold apiSearchHandler.
    destruct (String.eqb q ""); simpl; [by apply Hsame|].
    pose proof (searchFilesWithCache_trace W tGet tPut q (parsePage pageStr)
                  (parsePageSize pageSizeStr) st) as Hsearch.
    destruct (searchFilesWithCache _ _ _ _ _ _ _) as [r st']. simpl in Hsearch.
    destruct Hsearch as (Hflag & evs & Htrace & Hrun & Hstart).
    assert (ffmpegAvailable st' = ffmpegAvailable st ∧
            ∃ evs, trace st' = trace st ++ evs ∧ List.filter isCmdRun evs = [] ∧
              (ffmpegAvailable st = false → List.filter isCmdStart evs = []))
      by (split; [done|]; by exists evs).
    by destruct r as [[[results totalCount] fromCache]|err|].
  - by apply Hsame.
  - by apply Hsame.
Qed.

Lemma serve_gate (W : World) (reqs : list Request) (st : ServerState) :
  let '(replies, st') := serve W reqs st in
  ffmpegAvailable st' = ffmpegAvailable st ∧
  List.filter isCmdRun (trace st') = List.filter isCmdRun (trace st) ∧
  (ffmpegAvailable st = false →
     List.filter isCmdStart (trace st') = List.filter isCmdStart (trace st) ∧
     Forall2 (λ req reply,
                ∀ urlPath, req = GetTranscode urlPath →
                  ∃ r, reply = Sent r ∧ Http.status r = 503 ∧
                       Http.body r = Http.errorLine "ffmpeg不可用")
             reqs replies).
Proof.
  revert st. induction reqs as [|req reqs IH]; intros st; simpl.
  { split; [done|]. split; [done|]. intros _. split; [done|constructor]. }
  pose proof (handle_gate W req st) as Hgate.
  assert (ffmpegAvailable st = false → ∀ urlPath, req = GetTranscode urlPath →
            ∃ r, fst (handle W req st) = Sent r ∧ Http.status r = 503 ∧
                 Http.body r = Http.errorLine "ffmpeg不可用") as Hreply.
  { intros Hoff urlPath ->. simpl. rewrite transcodeHandler_unavailable by done.
    by eexists. }
  destruct (handle W req st) as [reply st1]. simpl in Hgate, Hreply.
  destruct Hgate as (Hflag & evs & Htrace & Hrun & Hstart).
  specialize (IH st1). destruct (serve W reqs st1) as [replies st2].
  destruct IH as (Hflag2 & Hrun2 & Hoff2).
  split; [congruence|]. split.
  - by rewrite Hrun2, Htrace, List.filter_app, Hrun, app_nil_r.
  - intros Hoff. rewrite Hoff in Hflag.
    destruct (Hoff2 Hflag) as [Hstart2 Hall]. split.
    + by rewrite Hstart2, Htrace, List.filter_app, Hstart, app_nil_r.
    + constructor; [by apply Hreply|done].
Qed.

(** Claim C8: the flag is written by the one probe of [main] and by nothing
    else, and the probe is the only command ever run; when the probe finds
    no ffmpeg, every request to [/transcode/] is answered with status 503
    and no process is started for any request. *)
Theorem transcode_unavailable (W : World) (reqs : list Request) :
  cmdRun W "ffmpeg" ffmpegProbeArgs = false →
  let '(replies, st) := main W reqs in
  ffmpegAvailable st = false ∧
  List.filter isCmdRun (trace st) = [CmdRun "ffmpeg" ffmpegProbeArgs] ∧
  List.filter isCmdStart (trace st) = [] ∧
  Forall2 (λ req reply,
             ∀ urlPath, req = GetTranscode urlPath →
               ∃ r, reply = Sent r ∧ Http.status r = 503 ∧
                    Http.body r = Http.errorLine "ffmpeg不可用")
          reqs replies.
Proof.
  intros Hprobe. unfold main.
  pose proof (serve_gate W reqs (checkFFmpegAvailability W initialState)) as Hserve.
  destruct (serve W reqs _) as [replies st].
  destruct Hserve as (Hflag & Hrun & Hoff).
  unfold checkFFmpegAvailability in *. simpl in *. rewrite Hprobe in *.
  destruct (Hoff eq_refl) as [Hstart Hall]. by repeat split.
Qed.

(** Whatever the probe finds, the flag keeps the value the probe gave it
    and no request runs the probe again. *)
Lemma ffmpeg_probed_once (W : World) (reqs : list Request) :
  let '(replies, st) := main W reqs in
  ffmpegAvailable st = cmdRun W "ffmpeg" ffmpegProbeArgs ∧
  List.filter isCmdRun (trace st) = [CmdRun "ffmpeg" ffmpegProbeArgs].
Proof.
  unfold main.
  pose proof (serve_gate W reqs (checkFFmpegAvailability W initialState)) as Hserve.
  destruct (serve W reqs _) as [replies st].
  by destruct Hserve as (Hflag & Hrun & _).
Qed.

Lemma transcode_unavailable_witness :
  cmdRun worldFiles "ffmpeg" ffmpegProbeArgs = false ∧
  let '(replies, st) :=
    main worldFiles [GetTranscode "/transcode/C:/a.mkv"; Tick 5;
                     GetTranscode "/transcode/C:/b.avi"] in
  ffmpegAvailable st = false ∧
  List.filter isCmdRun (trace st) = [CmdRun "ffmpeg" ffmpegProbeArgs] ∧
  List.filter isCmdStart (trace st) = [] ∧
  Forall2 (λ req reply,
             ∀ urlPath, req = GetTranscode urlPath →
               ∃ r, reply = Sent r ∧ Http.status r = 503 ∧
                    Http.body r = Http.errorLine "ffmpeg不可用")
          [GetTranscode "/transcode/C:/a.mkv"; Tick 5;
           GetTranscode "/transcode/C:/b.avi"] replies.
Proof.
  split; [reflexivity|].
  apply (transcode_unavailable worldFiles
           [GetTranscode "/transcode/C:/a.mkv"; Tick 5;
            GetTranscode "/transcode/C:/b.avi"]).
  reflexivity.
Defined.

(** With ffmpeg available the same request starts the transcoder. *)
Example transcode_available_starts_ffmpeg :
  let st := setFFmpeg true initialState in
  trace (snd (transcodeHandler worldOneAvi "/transcode/C:/v/a.avi" st)) =
    [CmdStart "ffmpeg" (ffmpegArgs "C:\v\a.avi")].
Proof. reflexivity. Qed.

(** * Paths of the path-carrying handlers *)

Lemma toWindowsPath_no_slash (filePath : string) :
  Strings.ContainsByte (toWindowsPath filePath) "/" = false.
Proof.
  unfold toWindowsPath. induction filePath as [|c s IH]; simpl; [done|].
  rewrite IH, orb_false_r. destruct (Ascii.eqb c "/") eqn:Hc; [done|exact Hc].
Qed.

(** Claim C10: the three path-carrying handlers take the path from the suffix of
    the URL path by the same steps: up to three passes of
    [url.QueryUnescape], the loop stopping at the first pass that fails,
    then every [/] replaced by a backslash.  For the suffix
    [C:/a%2520b.mp4] the path they resolve is [C:\a b.mp4], not the
    once-decoded [C:\a%20b.mp4]. *)
Theorem handlers_decode_three_times :
  (∀ urlPath,
     fileHandler_filePath urlPath =
       toWindowsPath (unescapeLoop 3 (Strings.from 6 urlPath)) ∧
     streamHandler_filePath urlPath =
       toWindowsPath (unescapeLoop 3 (Strings.from 8 urlPath)) ∧
     transcodeHandler_filePath urlPath =
       toWindowsPath (unescapeLoop 3 (Strings.from 11 urlPath))) ∧
  (∀ s,
     unescapeLoop 3 s =
       match Url.QueryUnescape s with
       | None => s
       | Some s1 =>
           match Url.QueryUnescape s1 with
           | None => s1
           | Some s2 =>
               match Url.QueryUnescape s2 with
               | None => s2
               | Some s3 => s3
               end
           end
       end) ∧
  (∀ filePath, Strings.ContainsByte (toWindowsPath filePath) "/" = false) ∧
  (let once s := toWindowsPath (default s (Url.QueryUnescape s)) in
   fileHandler_filePath "/file/C:/a%2520b.mp4" = "C:\a b.mp4" ∧
   streamHandler_filePath "/stream/C:/a%2520b.mp4" = "C:\a b.mp4" ∧
   transcodeHandler_filePath "/transcode/C:/a%2520b.mp4" = "C:\a b.mp4" ∧
   once "C:/a%2520b.mp4" = "C:\a%20b.mp4" ∧
   streamHandler_filePath "/stream/C:/a%2520b.mp4" ≠ once "C:/a%2520b.mp4").
Proof.
  split; [done|]. split.
  { intros s. simpl. by repeat case_match. }
  split; [apply toWindowsPath_no_slash|].
  vm_compute. by repeat split.
Qed.


(** * HTML escaping *)

(** Membership in a list that is written out. *)
Ltac in_list :=
  by repeat first [apply list_elem_of_here | apply list_elem_of_further].

Section EscapeHtml.

Import Strings.

Lemma append_assoc (a b c : string) : (a +:+ b) +:+ c = a +:+ (b +:+ c).
Proof.
  induction a as [|x a IH]; [done|].
  change (String x ((a +:+ b) +:+ c) = String x (a +:+ (b +:+ c))).
  by rewrite IH.
Qed.

Lemma ReplaceAll_app (a b : string) (old : ascii) (new : string) :
  Lib.ReplaceAll (a +:+ b) old new =
  Lib.ReplaceAll a old new +:+ Lib.ReplaceAll b old new.
Proof.
  induction a as [|x a IH]; [done|].
  change (String x a +:+ b) with (String x (a +:+ b)).
  cbn [Lib.ReplaceAll].
  destruct (Ascii.eqb x old); rewrite IH; [by rewrite append_assoc|done].
Qed.

(** The five passes amount to one pass that writes [escapeByte] for every
    byte: the ampersands that the later passes write are never escaped
    again, because [&] is replaced first. *)
Lemma escapeHtml_cons (c : ascii) (s : string) :
  escapeHtml (String c s) = escapeByte c +:+ escapeHtml s.
Proof.
  unfold escapeByte.
  destruct (Ascii.eqb_spec c "&") as [->|H1]; [reflexivity|].
  destruct (Ascii.eqb_spec c "<") as [->|H2]; [reflexivity|].
  destruct (Ascii.eqb_spec c ">") as [->|H3]; [reflexivity|].
  destruct (Ascii.eqb_spec c quoteByte) as [->|H4]; [reflexivity|].
  destruct (Ascii.eqb_spec c "'") as [->|H5]; [reflexivity|].
  apply Ascii.eqb_neq in H1, H2, H3, H4, H5.
  unfold escapeHtml.
  cbn [Lib.ReplaceAll]. rewrite H1. cbn [Lib.ReplaceAll]. rewrite H2.
  cbn [Lib.ReplaceAll]. rewrite H3. cbn [Lib.ReplaceAll]. rewrite H4.
  cbn [Lib.ReplaceAll]. by rewrite H5.
Qed.

Lemma escapeByte_clean (c x : ascii) :
  x ∈ ["<"; ">"; quoteByte; "'"]%char →
  ContainsByte (escapeByte c) x = false.
Proof.
  intros Hx. unfold escapeByte.
  destruct (Ascii.eqb_spec c "&") as [->|H1];
    [by repeat (apply elem_of_cons in Hx as [->|Hx]; [done|]);
        apply elem_of_nil in Hx|].
  destruct (Ascii.eqb_spec c "<") as [->|H2];
    [by repeat (apply elem_of_cons in Hx as [->|Hx]; [done|]);
        apply elem_of_nil in Hx|].
  destruct (Ascii.eqb_spec c ">") as [->|H3];
    [by repeat (apply elem_of_cons in Hx as [->|Hx]; [done|]);
        apply elem_of_nil in Hx|].
  destruct (Ascii.eqb_spec c quoteByte) as [->|H4];
    [by repeat (apply elem_of_cons in Hx as [->|Hx]; [done|]);
        apply elem_of_nil in Hx|].
  destruct (Ascii.eqb_spec c "'") as [->|H5];
    [by repeat (apply elem_of_cons in Hx as [->|Hx]; [done|]);
        apply elem_of_nil in Hx|].
  cbn. rewrite orb_false_r. apply Ascii.eqb_neq.
  repeat (apply elem_of_cons in Hx as [->|Hx]; [done|]).
  by apply elem_of_nil in Hx.
Qed.

Lemma unescapeHtml_escapeByte (c : ascii) (rest : string) :
  unescapeHtml (escapeByte c +:+ rest) = String c (unescapeHtml rest).
Proof.
  unfold escapeByte.
  destruct (Ascii.eqb_spec c "&") as [->|H1]; [reflexivity|].
  destruct (Ascii.eqb_spec c "<") as [->|H2]; [reflexivity|].
  destruct (Ascii.eqb_spec c ">") as [->|H3]; [reflexivity|].
  destruct (Ascii.eqb_spec c quoteByte) as [->|H4]; [reflexivity|].
  destruct (Ascii.eqb_spec c "'") as [->|H5]; [reflexivity|].
  clear H2 H3 H4 H5.
  destruct c as [[] [] [] [] [] [] [] []]; try reflexivity. by destruct H1.
Qed.

Lemma unescapeHtml_escapeHtml (s : string) : unescapeHtml (escapeHtml s) = s.
Proof.
  induction s as [|c s IH]; [done|].
  by rewrite escapeHtml_cons, unescapeHtml_escapeByte, IH.
Qed.

(** X1: whatever the text, the output of [escapeHtml] holds no [<], no
    [>], no double quote and no single quote. *)
Theorem escapeHtml_no_markup (s : string) :
  ContainsByte (escapeHtml s) "<" = false ∧
  ContainsByte (escapeHtml s) ">" = false ∧
  ContainsByte (escapeHtml s) quoteByte = false ∧
  ContainsByte (escapeHtml s) "'" = false.
Proof.
  assert (∀ x, x ∈ ["<"; ">"; quoteByte; "'"]%char →
               ContainsByte (escapeHtml s) x = false) as Hclean.
  { intros x Hx. induction s as [|c s IH]; [done|].
    by rewrite escapeHtml_cons, ContainsByte_app, escapeByte_clean, IH. }
  repeat split; apply Hclean; in_list.
Qed.

(** X2: [escapeHtml] works byte by byte and loses nothing: the escape of
    a concatenation is the concatenation of the escapes, a text without
    any of the five bytes is left as it is, and two different texts never
    have the same escape. *)
Theorem escapeHtml_bytewise (s t : string) :
  escapeHtml (s +:+ t) = escapeHtml s +:+ escapeHtml t ∧
  ((∀ x, x ∈ ["&"; "<"; ">"; quoteByte; "'"]%char → ContainsByte s x = false) →
   escapeHtml s = s) ∧
  (escapeHtml s = escapeHtml t → s = t).
Proof.
  split; [|split].
  - induction s as [|c s IH]; [done|].
    change (String c s +:+ t) with (String c (s +:+ t)).
    by rewrite !escapeHtml_cons, IH, append_assoc.
  - induction s as [|c s IH]; [done|]. intros Hplain.
    rewrite escapeHtml_cons, IH.
    + assert (∀ x, x ∈ ["&"; "<"; ">"; quoteByte; "'"]%char →
                   Ascii.eqb c x = false) as Hc.
      { intros x Hx. specialize (Hplain x Hx). cbn in Hplain.
        by apply orb_false_elim in Hplain as [-> _]. }
      unfold escapeByte. by rewrite !Hc by in_list.
    + intros x Hx. specialize (Hplain x Hx). cbn in Hplain.
      by apply orb_false_elim in Hplain as [_ ->].
  - intros Heq. rewrite <- (unescapeHtml_escapeHtml s), Heq.
    apply unescapeHtml_escapeHtml.
Qed.

End EscapeHtml.

(** * Text encodings *)

Lemma stringOf_empty (data : list byte) : Lib.stringOf data = "" ↔ data = [].
Proof. by destruct data. Qed.

Lemma ascii_is_utf8 (data : list byte) :
  existsb (λ b, (127 <? Byte.to_N b)%N) data = false →
  Lib.utf8Valid data = true.
Proof.
  induction data as [|b data IH]; [done|].
  intros [Hb Hdata]%orb_false_elim. cbn [Lib.utf8Valid].
  assert (Lib.byteIn 0 127 b = true) as ->; [|by apply IH].
  unfold Lib.byteIn. apply N.ltb_ge in Hb.
  apply andb_true_intro. split; apply N.leb_le; lia.
Qed.

Lemma detectAndConvertEncoding_unchanged (data : list byte) :
  detectAndConvertEncoding data = Lib.stringOf data.
Proof.
  unfold detectAndConvertEncoding, tryGBKDecode.
  destruct (isValidUTF8 data); [done|].
  destruct (existsb _ data); cbn [negb]; [done|].
  by destruct (String.eqb (Lib.stringOf data) "").
Qed.

(** X3: [detectAndConvertEncoding] converts nothing: whatever the
    content and whatever encoding is detected, the text it returns holds
    the bytes it was given, one for one. *)
Theorem detectAndConvertEncoding_identity (data : list byte) :
  detectAndConvertEncoding data = Lib.stringOf data ∧
  list_byte_of_string (detectAndConvertEncoding data) = data ∧
  String.length (detectAndConvertEncoding data) = length data.
Proof.
  rewrite detectAndConvertEncoding_unchanged. split; [done|].
  split; [apply list_byte_of_string_of_list_byte|].
  unfold Lib.stringOf. induction data as [|b data IH]; [done|].
  cbn. by rewrite <- IH.
Qed.

(** X4: [detectEncoding] never answers [GBK].  It answers [UTF-8] for
    non-empty valid UTF-8 and [Unknown] for everything else, the empty
    file included: content that passes the test for GBK is pure ASCII and
    was already taken as UTF-8. *)
Theorem detectEncoding_never_gbk (data : list byte) :
  detectEncoding data ≠ "GBK" ∧
  detectEncoding data =
    (if (0 <? Z.of_nat (length data)) && Lib.utf8Valid data then "UTF-8"
     else "Unknown") ∧
  detectEncoding [] = "Unknown".
Proof.
  assert (detectEncoding data =
            if (0 <? Z.of_nat (length data)) && Lib.utf8Valid data then "UTF-8"
            else "Unknown") as Hdetect.
  { unfold detectEncoding, isValidUTF8, tryGBKDecode.
    destruct data as [|b data]; [done|].
    change (0 <? Z.of_nat (length (b :: data))) with true. cbn [andb].
    destruct (Lib.utf8Valid (b :: data)) eqn:Hvalid; [done|].
    destruct (existsb _ (b :: data)) eqn:Hhigh; [done|].
    apply ascii_is_utf8 in Hhigh. congruence. }
  split; [|by split].
  rewrite Hdetect. by destruct (_ && _).
Qed.

(** * JSON strings *)

(** The case analysis of the decoder: the head byte, the bytes that follow
    it, and the tests on them.  The text written for an invalid head is
    named first, so that the analysis does not enter it. *)
Ltac utf8_case :=
  match goal with
  | |- context [if Lib.byteIn ?lo ?hi ?b then _ else _] =>
      destruct (Lib.byteIn lo hi b) eqn:?
  | |- context [match ?l with [] => _ | _ :: _ => _ end] =>
      is_var l; destruct l
  | |- context [Lib.byteIn ?lo ?hi ?b && _] =>
      destruct (Lib.byteIn lo hi b) eqn:?
  | |- context [_ && Lib.byteIn ?lo ?hi ?b] =>
      destruct (Lib.byteIn lo hi b) eqn:?
  end; cbn [andb].

Ltac utf8_cases b rest invalid Hinvalid :=
  cbn [Lib.utf8Valid Json.stringBytes];
  remember (Json.replacement ++ Json.stringBytes rest) as invalid eqn:Hinvalid;
  repeat utf8_case.

Lemma stringBytes_valid (p : list byte) :
  Lib.utf8Valid p = true → Json.stringBytes p = p.
Proof.
  remember (length p) as n eqn:Hn. revert p Hn.
  induction n as [n IH] using lt_wf_ind. intros p ->.
  destruct p as [|b rest]; [done|].
  utf8_cases b rest invalid Hinvalid; try discriminate;
    intros Hvalid; repeat f_equal;
    (eapply IH; [|reflexivity|exact Hvalid]); cbn [length]; lia.
Qed.

Lemma stringBytes_length (p : list byte) :
  (length p ≤ length (Json.stringBytes p))%nat.
Proof.
  remember (length p) as n eqn:Hn. revert p Hn.
  induction n as [n IH] using lt_wf_ind. intros p ->.
  destruct p as [|b rest]; [done|].
  assert (length rest ≤ length (Json.stringBytes rest))%nat as Hrest
    by (eapply IH; [|reflexivity]; cbn [length]; lia).
  utf8_cases b rest invalid Hinvalid;
    try (subst invalid; unfold Json.replacement; rewrite length_app;
         cbn [length] in *; lia);
    cbn [length];
    match goal with
    | |- context [Json.stringBytes ?l] =>
        assert (length l ≤ length (Json.stringBytes l))%nat
          by (eapply IH; [|reflexivity]; cbn [length]; lia)
    end; lia.
Qed.

Lemma stringBytes_fixed (p : list byte) :
  Json.stringBytes p = p → Lib.utf8Valid p = true.
Proof.
  remember (length p) as n eqn:Hn. revert p Hn.
  induction n as [n IH] using lt_wf_ind. intros p ->.
  destruct p as [|b rest]; [done|].
  pose proof (stringBytes_length rest) as Hrest.
  utf8_cases b rest invalid Hinvalid; intros Hfixed;
    try (subst invalid; apply (f_equal length) in Hfixed;
         unfold Json.replacement in Hfixed;
         rewrite length_app in Hfixed; cbn [length] in *; lia);
    injection Hfixed as Hfixed;
    (eapply IH; [|reflexivity|exact Hfixed]); cbn [length]; lia.
Qed.

Lemma stringOf_bytes (s : string) : Lib.stringOf (list_byte_of_string s) = s.
Proof. apply string_of_list_byte_of_string. Qed.

Lemma text_valid (s : string) : Json.text s = s ↔ Json.valid s = true.
Proof.
  unfold Json.text, Json.valid. split.
  - intros Htext. apply stringBytes_fixed.
    rewrite <- Htext at 2. unfold Lib.stringOf.
    by rewrite list_byte_of_string_of_list_byte.
  - intros Hvalid. by rewrite stringBytes_valid, stringOf_bytes.
Qed.

(** * Tables of extensions *)

Ltac split_ext ext :=
  repeat match goal with
         | |- context [String.eqb ext ?s] =>
             destruct (String.eqb_spec ext s) as [->|?]
         end.

Lemma oneOf_elem_of (ext : string) (l : list string) :
  bool_decide (ext ∈ l) = oneOf ext l.
Proof.
  unfold oneOf. induction l as [|x l IH]; [done|]. cbn [existsb].
  rewrite <- IH. destruct (String.eqb_spec ext x) as [->|Hne].
  - apply bool_decide_eq_true_2, list_elem_of_here.
  - apply bool_decide_ext. rewrite elem_of_cons.
    split; [by intros [?|?]|by right].
Qed.

(** X5: the list of [isImageFile] and the table of [getContentType]
    agree: an extension is an image extension exactly when its content
    type is an [image/] type. *)
Theorem isImageFile_iff_image_type (ext : string) :
  isImageFile ext = true ↔
  Strings.HasPrefix (getContentType ext) "image/" = true.
Proof.
  unfold isImageFile, oneOf, imageExts, getContentType. cbn [existsb].
  split_ext ext; by vm_compute.
Qed.

(** X6: the four places that know the video extensions agree.  An
    extension is in the list of [videoPlayerHandler] exactly when
    [getContentType] gives it a [video/] type; [streamHandler] then sends
    that same type, and [application/octet-stream] for every other
    extension; and a search result is typed [video] exactly for these
    extensions, [image] exactly for those of [isImageFile]. *)
Theorem video_tables_agree (ext : string) :
  (oneOf ext videoExts = true ↔
   Strings.HasPrefix (getContentType ext) "video/" = true) ∧
  videoContentType ext =
    (if oneOf ext videoExts then getContentType ext
     else "application/octet-stream") ∧
  (∀ W filePath, lowerExt W filePath = ext →
     (fileType W filePath false = "video" ↔ oneOf ext videoExts = true) ∧
     (fileType W filePath false = "image" ↔ isImageFile ext = true)).
Proof.
  split; [|split].
  - unfold oneOf, videoExts, getContentType. cbn [existsb].
    split_ext ext; by vm_compute.
  - unfold oneOf, videoExts, getContentType, videoContentType. cbn [existsb].
    split_ext ext; by vm_compute.
  - intros W filePath Hext. unfold fileType. rewrite Hext, !oneOf_elem_of.
    unfold isImageFile, oneOf, videoExts, imageExts. cbn [existsb].
    split_ext ext; by vm_compute.
Qed.

Lemma languagePairs_are_text :
  forallb (λ p, oneOf p.1 textExts) languagePairs = true.
Proof. by vm_compute. Qed.

(** X7: every extension for which [getLanguageFromExtension] returns a
    language other than the default [Text] is accepted by [isTextFile]. *)
Theorem language_extensions_are_text (W : World) (toLower : string → string)
    (ext : string) :
  getLanguageFromExtension ext ≠ "Text" → isTextFile W toLower ext = true.
Proof.
  unfold getLanguageFromExtension, languageMap, isTextFile.
  destruct (list_to_map languagePairs !! ext) as [lang|] eqn:Hlang; [|done].
  intros _. apply elem_of_list_to_map_2 in Hlang.
  pose proof languagePairs_are_text as Hall.
  rewrite forallb_forall in Hall.
  apply list_elem_of_In in Hlang. specialize (Hall _ Hlang).
  cbn [fst] in Hall. by rewrite Hall.
Qed.

Lemma language_extensions_are_text_witness :
  isTextFile worldFiles (λ s, s) ".go" = true.
Proof.
  apply (language_extensions_are_text worldFiles (λ s, s) ".go").
  vm_compute. discriminate.
Defined.

(** * The records of a page *)

Lemma omap_cons_eq {A B : Type} (f : A → option B) (x : A) (l : list A) :
  omap f (x :: l) =
    match f x with Some y => y :: omap f l | None => omap f l end.
Proof. done. Qed.

Lemma collectPage_seqZ (W : World) (allPaths : list string) (n start : nat)
    (results : list SearchResult) :
  (start + n ≤ length allPaths)%nat →
  collectPage W allPaths (seqZ (Z.of_nat start) (Z.of_nat n)) results =
    Some (results ++ omap (searchRecord W) (take n (drop start allPaths))).
Proof.
  revert start results. induction n as [|n IH]; intros start results Hlen.
  { rewrite seqZ_nil by lia. cbn. by rewrite app_nil_r. }
  rewrite seqZ_cons by lia. cbn [collectPage].
  destruct (Z.ltb_spec (Z.of_nat start) 0); [lia|].
  destruct (Z.leb_spec (Z.of_nat (length allPaths)) (Z.of_nat start)); [lia|].
  cbn [orb]. rewrite Nat2Z.id.
  destruct (lookup_lt_is_Some_2 allPaths start ltac:(lia)) as [filePath Hpath].
  rewrite Hpath, (drop_S _ _ _ Hpath). cbn [take].
  replace (Z.succ (Z.of_nat start)) with (Z.of_nat (S start)) by lia.
  replace (Z.pred (Z.of_nat (S n))) with (Z.of_nat n) by lia.
  rewrite omap_cons_eq. unfold searchRecord at 1.
  destruct (osStat W filePath) as [info| |err]; rewrite IH by lia; [|done..].
  by rewrite <- app_assoc.
Qed.

Lemma paginate_in_range (W : World) (allPaths : list string)
    (page pageSize : Z) (fromCache : bool) :
  1 ≤ pageSize → 1 ≤ page → page * pageSize ≤ maxInt64 →
  paginate W allPaths page pageSize fromCache =
    Returned (omap (searchRecord W)
                (take (Z.to_nat pageSize)
                   (drop (Z.to_nat ((page - 1) * pageSize)) allPaths)),
              Z.of_nat (length allPaths), fromCache).
Proof.
  intros Hps Hpage Hmax. unfold paginate.
  destruct (Z.eqb_spec (Z.of_nat (length allPaths)) 0) as [Hnil|Hsome].
  { destruct allPaths; [|done]. by rewrite drop_nil, take_nil. }
  destruct (pageWindow_in_range page pageSize (Z.of_nat (length allPaths)))
    as [-> _]; [done..|].
  set (start := (page - 1) * pageSize).
  assert (0 ≤ start) as Hstart by (subst start; nia).
  destruct (Z.le_gt_cases (Z.of_nat (length allPaths)) start) as [Hout|Hin].
  { rewrite seqZ_nil by lia. cbn [collectPage].
    by rewrite drop_ge, take_nil by lia. }
  set (len := Z.min pageSize (Z.of_nat (length allPaths) - start)).
  replace start with (Z.of_nat (Z.to_nat start)) at 1 by lia.
  replace len with (Z.of_nat (Z.to_nat len)) by (subst len; lia).
  rewrite collectPage_seqZ by (subst len; lia). cbn [app].
  do 3 f_equal. subst len.
  destruct (Z.le_gt_cases pageSize (Z.of_nat (length allPaths) - start)).
  - by rewrite Z.min_l by lia.
  - rewrite Z.min_r by lia.
    rewrite !take_ge; [done|rewrite length_drop; lia..].
Qed.

(** X8: while [page * pageSize] fits in an [int], a page never panics and
    carries, in the order of the cached list, the records of exactly those
    paths of the slice [[(page-1)*pageSize, page*pageSize)] that can be
    stat'ed; so it has at most [pageSize] records, while the total is the
    length of the whole list, paths that cannot be stat'ed included. *)
Theorem page_records (W : World) (allPaths : list string)
    (page pageSize : Z) (fromCache : bool) :
  1 ≤ pageSize → 1 ≤ page → page * pageSize ≤ maxInt64 →
  let slice :=
    take (Z.to_nat pageSize) (drop (Z.to_nat ((page - 1) * pageSize)) allPaths) in
  ∃ results,
    paginate W allPaths page pageSize fromCache =
      Returned (results, Z.of_nat (length allPaths), fromCache) ∧
    results = omap (searchRecord W) slice ∧
    map Path results =
      List.filter (λ p, match osStat W p with StatOk _ => true | _ => false end)
        slice ∧
    Z.of_nat (length results) ≤ pageSize.
Proof.
  intros Hps Hpage Hmax slice. eexists. split; [by apply paginate_in_range|].
  fold slice. split; [done|].
  assert (∀ l, map Path (omap (searchRecord W) l) =
               List.filter (λ p, match osStat W p with
                                 | StatOk _ => true | _ => false end) l ∧
               (length (omap (searchRecord W) l) ≤ length l)%nat) as Hmap.
  { induction l as [|p l [IH1 IH2]]; [done|].
    rewrite omap_cons_eq. cbn [List.filter length].
    remember (searchRecord W p) as record eqn:Hrecord.
    unfold searchRecord in Hrecord.
    destruct (osStat W p); subst record; cbn; rewrite ?IH1; split; (done || lia). }
  split; [apply Hmap|].
  destruct (Hmap slice) as [_ Hlen]. subst slice.
  rewrite length_take in Hlen. lia.
Qed.

Lemma page_records_witness :
  ∃ results,
    paginate worldFiles fivePaths 2 2 true =
      Returned (results, Z.of_nat (length fivePaths), true) ∧
    results = omap (searchRecord worldFiles)
                (take (Z.to_nat 2) (drop (Z.to_nat ((2 - 1) * 2)) fivePaths)) ∧
    map Path results =
      List.filter (λ p, match osStat worldFiles p with
                        | StatOk _ => true | _ => false end)
        (take (Z.to_nat 2) (drop (Z.to_nat ((2 - 1) * 2)) fivePaths)) ∧
    Z.of_nat (length results) ≤ 2.
Proof.
  apply (page_records worldFiles fivePaths 2 2 true); [lia|lia|].
  vm_compute. discriminate.
Defined.

(** X9: the legacy search of [/search] is not paged: for a query whose
    cached list has at most 999999 paths, [searchFiles] returns the record
    of every path that can be stat'ed, in order, and [searchHandler]
    answers with all of them; without a query it redirects to the index
    page and does not search. *)
Theorem legacy_search_returns_all (W : World) (tGet tPut : Z) (q : string)
    (st : ServerState) (P : list string) :
  cacheGet st q tGet = Some P → Z.of_nat (length P) ≤ 999999 →
  let all := omap (searchRecord W) P in
  searchFiles W tGet tPut q st = (Returned all, st) ∧
  (q ≠ "" → searchHandler W tGet tPut q st =
              (LegacyJSON all (Z.of_nat (length all)) q, st)) ∧
  searchHandler W tGet tPut "" st = (LegacyRedirect "/" 303, st).
Proof.
  intros Hhit Hlen all.
  assert (searchFiles W tGet tPut q st = (Returned all, st)) as Hall.
  { unfold searchFiles, searchFilesOptimized.
    rewrite (searchFilesWithCache_hit _ _ _ _ _ _ _ P) by done.
    rewrite paginate_in_range by (unfold maxInt64; lia).
    replace (Z.to_nat ((1 - 1) * 999999)) with 0%nat by lia.
    rewrite drop_0. by rewrite take_ge by lia. }
  split; [done|]. split; [|done].
  intros Hq. unfold searchHandler.
  apply String.eqb_neq in Hq. by rewrite Hq, Hall.
Qed.

Lemma legacy_search_returns_all_witness :
  searchFiles worldFiles 1 1 "video" seededState =
    (Returned (omap (searchRecord worldFiles) fivePaths), seededState) ∧
  ("video" ≠ "" →
   searchHandler worldFiles 1 1 "video" seededState =
     (LegacyJSON (omap (searchRecord worldFiles) fivePaths)
        (Z.of_nat (length (omap (searchRecord worldFiles) fivePaths)))
        "video", seededState)) ∧
  searchHandler worldFiles 1 1 "" seededState = (LegacyRedirect "/" 303, seededState).
Proof.
  apply (legacy_search_returns_all worldFiles 1 1 "video" seededState fivePaths).
  - reflexivity.
  - vm_compute. discriminate.
Defined.

(** * The parameters of [/api/search] *)

Lemma parsePage_bounds (pageStr : string) : 1 ≤ parsePage pageStr ≤ maxInt64.
Proof.
  unfold parsePage, Strconv.Atoi.
  destruct (String.eqb pageStr ""); [by unfold maxInt64|].
  destruct (Strconv.ParseInt pageStr) as [p|] eqn:Hp; [|by unfold maxInt64].
  apply ParseInt_int64 in Hp as [_ Hp].
  destruct (Z.ltb_spec 0 p); [lia|by unfold maxInt64].
Qed.

Lemma parsePageSize_bounds (pageSizeStr : string) :
  1 ≤ parsePageSize pageSizeStr ≤ MaxPageSize.
Proof.
  unfold parsePageSize, Strconv.Atoi, MaxPageSize, DefaultPageSize.
  destruct (String.eqb pageSizeStr ""); [lia|].
  destruct (Strconv.ParseInt pageSizeStr) as [ps|]; [|lia].
  destruct (Z.ltb_spec 0 ps); destruct (Z.leb_spec ps 200); cbn [andb]; lia.
Qed.

(** X10: whatever the strings [page] and [pageSize] of the request, the
    JSON answer of [/api/search] has [page >= 1] and [pageSize] between 1
    and 200: a value that does not parse or is out of range is replaced by
    the default (1, or 50, not the nearest bound).  The query of the
    request is not empty; the answer carries it as the encoder writes it,
    which is the query itself exactly when the query is valid UTF-8.
    [count] is the number of the records of the answer. *)
Theorem apiSearchHandler_reply_bounds (W : World) (tGet tPut : Z)
    (query pageStr pageSizeStr : string) (st : ServerState)
    (response : SearchResponse) :
  fst (apiSearchHandler W tGet tPut query pageStr pageSizeStr st)
    = ReplyJSON response →
  query ≠ "" ∧ Query response = Json.text query ∧
  (Query response = query ↔ Json.valid query = true) ∧
  1 ≤ Page response ≤ maxInt64 ∧
  1 ≤ PageSize response ≤ MaxPageSize ∧
  (∀ v, Strconv.Atoi pageSizeStr = Some v → ¬ (1 ≤ v ≤ 200) →
        PageSize response = DefaultPageSize) ∧
  Count response = Z.of_nat (length (Results response)).
Proof.
  unfold apiSearchHandler.
  destruct (String.eqb_spec query "") as [->|Hq]; [done|].
  destruct (searchFilesWithCache _ _ _ _ _ _ _) as [r st'].
  destruct r as [[[results totalCount] fromCache]|err|]; [|done..].
  cbn [fst]. intros [= <-].
  cbn [encodeSearchResponse Query Page PageSize Count Results].
  split; [done|]. split; [done|]. split; [apply text_valid|].
  split; [apply parsePage_bounds|]. split; [apply parsePageSize_bounds|].
  split; [|by rewrite length_map].
  intros v Hv Hout. unfold parsePageSize. rewrite Hv.
  destruct (String.eqb pageSizeStr ""); [done|].
  destruct (Z.ltb_spec 0 v); destruct (Z.leb_spec v MaxPageSize);
    cbn [andb]; unfold MaxPageSize in *; (done || lia).
Qed.

Lemma apiSearchHandler_reply_bounds_witness :
  "video" ≠ "" ∧
  Query (mkSearchResponse [] 0 5 "video" 1 50 1) = Json.text "video" ∧
  (Query (mkSearchResponse [] 0 5 "video" 1 50 1) = "video"
   ↔ Json.valid "video" = true) ∧
  1 ≤ Page (mkSearchResponse [] 0 5 "video" 1 50 1) ≤ maxInt64 ∧
  1 ≤ PageSize (mkSearchResponse [] 0 5 "video" 1 50 1) ≤ MaxPageSize ∧
  (∀ v, Strconv.Atoi "500" = Some v → ¬ (1 ≤ v ≤ 200) →
        PageSize (mkSearchResponse [] 0 5 "video" 1 50 1) = DefaultPageSize) ∧
  Count (mkSearchResponse [] 0 5 "video" 1 50 1) =
    Z.of_nat (length (Results (mkSearchResponse [] 0 5 "video" 1 50 1))).
Proof.
  apply (apiSearchHandler_reply_bounds worldBackendsDown 1 1 "video" "0" "500"
           seededState).
  reflexivity.
Defined.

(** A query that is not valid UTF-8, the single byte [ff], comes back as
    the replacement character. *)
Example apiSearchHandler_invalid_query :
  let query := String "255" EmptyString in
  ∃ response,
    fst (apiSearchHandler worldFiles 1 1 query "" "" initialState)
      = ReplyJSON response ∧
    Query response ≠ query ∧
    list_byte_of_string (Query response) = Json.replacement.
Proof. eexists. split; [reflexivity|]. by split. Qed.

(** * More on the cache *)

(** X11: a search that misses and gets a path list from a backend is
    cached: every search of the same query at an age below the TTL, counted
    from the time of the write, is a hit on that list, calls no backend and
    changes nothing, whatever page it asks for.  When both backends fail
    nothing is cached. *)
Theorem search_result_is_cached (W : World) (tGet tPut : Z) (q : string)
    (page pageSize : Z) (st : ServerState) (P : list string) :
  cacheGet st q tGet = None →
  everythingSDK W q = inl P ∨
    (∃ e, everythingSDK W q = inr e) ∧ esExe W q = inl P →
  let st1 := snd (searchFilesWithCache W tGet tPut q page pageSize st) in
  searchCache st1 !! q = Some {| Paths := P; Timestamp := tPut |} ∧
  ∀ tGet' tPut' page' pageSize',
    tGet' - tPut < cacheExpiry →
    searchFilesWithCache W tGet' tPut' q page' pageSize' st1 =
      (paginate W P page' pageSize' true, st1).
Proof.
  intros Hmiss Hfound st1.
  assert (searchCache st1 !! q = Some {| Paths := P; Timestamp := tPut |})
    as Hentry.
  { subst st1.
    pose proof (searchFilesWithCache_miss W tGet tPut q page pageSize st Hmiss)
      as Hspec.
    destruct (searchFilesWithCache _ _ _ _ _ _ _) as [r st']. cbn [snd].
    destruct Hfound as [HP|[[e He] HP]]; rewrite ?He, HP in Hspec;
      destruct Hspec as (_ & -> & _); apply lookup_insert_eq. }
  split; [done|]. intros tGet' tPut' page' pageSize' Hage.
  apply searchFilesWithCache_hit. unfold cacheGet.
  rewrite Hentry, Since_fresh. cbn. by apply Z.ltb_lt in Hage as ->.
Qed.

Lemma search_result_is_cached_witness :
  searchCache (snd (searchFilesWithCache worldFiles 0 3 "cats" 1 2 initialState))
    !! "cats" = Some {| Paths := fivePaths; Timestamp := 3 |} ∧
  ∀ tGet' tPut' page' pageSize',
    tGet' - 3 < cacheExpiry →
    searchFilesWithCache worldFiles tGet' tPut' "cats" page' pageSize'
      (snd (searchFilesWithCache worldFiles 0 3 "cats" 1 2 initialState)) =
      (paginate worldFiles fivePaths page' pageSize' true,
       snd (searchFilesWithCache worldFiles 0 3 "cats" 1 2 initialState)).
Proof.
  apply (search_result_is_cached worldFiles 0 3 "cats" 1 2 initialState fivePaths).
  - reflexivity.
  - left. reflexivity.
Defined.

(** X12: one run of the sweep at time [now] keeps exactly the entries whose
    age is at most the TTL, each as it was stored, and does nothing else to
    the state. *)
Theorem sweep_keeps_exactly (now : Z) (st : ServerState) (q : string)
    (cache : SearchCache) :
  (searchCache (cleanExpiredCache now st) !! q = Some cache ↔
   searchCache st !! q = Some cache ∧ now - Timestamp cache ≤ cacheExpiry) ∧
  ffmpegAvailable (cleanExpiredCache now st) = ffmpegAvailable st ∧
  trace (cleanExpiredCache now st) = trace st.
Proof.
  split; [|done]. rewrite cleanExpiredCache_lookup.
  destruct (searchCache st !! q) as [c|]; [|by split; [|intros [? _]]].
  destruct (Z.ltb_spec cacheExpiry (now - Timestamp c)).
  - split; [done|]. intros [[= ->] Hage]. lia.
  - split; [intros [= ->]; by split|]. by intros [-> _].
Qed.

(** X13: the sweep is invisible to the readers: at any time from the time
    of the sweep on, the read of the cache finds after the sweep what it
    would have found without it. *)
Theorem sweep_invisible_to_reads (now t : Z) (st : ServerState) (q : string) :
  now ≤ t →
  cacheGet (cleanExpiredCache now st) q t = cacheGet st q t.
Proof.
  intros Hlater. unfold cacheGet. rewrite cleanExpiredCache_lookup.
  destruct (searchCache st !! q) as [c|]; [|done].
  destruct (Z.ltb_spec cacheExpiry (now - Timestamp c)); [|done].
  rewrite Since_fresh. by destruct (Z.ltb_spec (t - Timestamp c) cacheExpiry); [lia|].
Qed.

Lemma sweep_invisible_to_reads_witness :
  cacheGet (cleanExpiredCache (cacheExpiry + 5) seededState) "video" (cacheExpiry + 7)
    = cacheGet seededState "video" (cacheExpiry + 7).
Proof.
  apply (sweep_invisible_to_reads (cacheExpiry + 5) (cacheExpiry + 7)).
  vm_compute. discriminate.
Defined.

(** X14: [cacheClearHandler] reports the number of cached queries and
    leaves an empty cache: every read misses afterwards, so the next
    search of any query begins with a call of the SDK, and a second clear
    reports 0. *)
Theorem cache_clear_empties (W : World) (st : ServerState) :
  let '(count, st') := cacheClearHandler st in
  count = Z.of_nat (size (searchCache st)) ∧
  (∀ q now, cacheGet st' q now = None) ∧
  (∀ q tGet tPut page pageSize,
     ∃ evs, trace (snd (searchFilesWithCache W tGet tPut q page pageSize st'))
            = trace st ++ CallSDK q :: evs) ∧
  fst (cacheClearHandler st') = 0.
Proof.
  unfold cacheClearHandler. cbn.
  split; [done|]. split; [done|]. split; [|done].
  intros q tGet tPut page pageSize.
  pose proof (searchFilesWithCache_miss W tGet tPut q page pageSize
                (setCache ∅ st) eq_refl) as Hspec.
  destruct (searchFilesWithCache _ _ _ _ _ _ _) as [r st'].
  cbn [snd]. cbn [setCache trace] in Hspec.
  destruct (everythingSDK W q); [|destruct (esExe W q)];
    destruct Hspec as (-> & _); eauto.
Qed.

(** * More on range delivery *)

Lemma Split_pieces_no_sep (s : string) (sep : ascii) (piece : string) :
  piece ∈ Strings.Split s sep → Strings.ContainsByte piece sep = false.
Proof.
  revert piece. induction s as [|c s IH]; intros piece; cbn.
  { by intros ->%list_elem_of_singleton. }
  destruct (Ascii.eqb c sep) eqn:Hc.
  - intros [->|Hin]%elem_of_cons; [done|by apply IH].
  - destruct (Strings.Split s sep) as [|p ps].
    + intros ->%list_elem_of_singleton. cbn. by rewrite Hc.
    + intros [->|Hin]%elem_of_cons.
      * cbn. rewrite Hc. apply IH, list_elem_of_here.
      * by apply IH, list_elem_of_further.
Qed.

(** What [serveRange] can answer, for any header at all. *)
Lemma serveRange_cases (w : Http.Response) (h : string) (file : list byte)
    (fileSize : Z) (ct : string) :
  serveRange w h file fileSize ct = rangeNotSatisfiable w ∨
  ∃ start end_, 0 ≤ start ≤ end_ ∧ start < fileSize ∧
    serveRange w h file fileSize ct = respondRange w start end_ file fileSize ct
    ∧ end_ ≤ maxInt64.
Proof.
  unfold serveRange.
  destruct (Strings.HasPrefix h "bytes="); cbn [negb]; [|by left].
  destruct (Strings.Split _ _) as [|p0 [|p1 [|p2 ps]]] eqn:Hsplit;
    try by left.
  destruct (parseStart p0) as [start|] eqn:Hstart; [|by left].
  destruct (parseEnd p1 fileSize) as [end_|] eqn:Hend; [|by left].
  unfold respondRange at 1.
  destruct (Z.ltb_spec end_ start); [by left|].
  destruct (Z.leb_spec fileSize start); [by left|].
  right. exists start, end_.
  assert (end_ ≤ maxInt64) as Hmax.
  { unfold parseEnd in Hend. destruct (String.eqb p1 "").
    - injection Hend as <-. apply wrap64_range.
    - by apply ParseInt_int64 in Hend as [_ ?]. }
  split; [|done]. split; [|done].
  unfold parseStart in Hstart.
  destruct (String.eqb p0 ""); [by injection Hstart as <-|].
  eapply ParseInt_nonneg; [|exact Hstart].
  apply (Split_pieces_no_sep (Strings.from 6 h)).
  rewrite Hsplit. apply list_elem_of_here.
Qed.

Lemma serveRange_status (w : Http.Response) (h : string) (file : list byte)
    (fileSize : Z) (ct : string) :
  Http.status (serveRange w h file fileSize ct) = 206 ∨
  Http.status (serveRange w h file fileSize ct) = 416.
Proof.
  destruct (serveRange_cases w h file fileSize ct)
    as [->|(start & end_ & [_ Hle] & Hlt & -> & _)]; [by right|left].
  by destruct (respondRange_ok w start end_ file fileSize ct) as [-> _].
Qed.

(** X15: whatever the Range header, [serveRange] answers either with
    status 416 and only the error line, or with status 206 and a body that
    is a run of bytes of the file, taken at an offset inside the file.  The
    [Content-Length] it announces is [end - start + 1] and the body is never
    longer than that, with one exception: for [start = 0] and [end] the
    largest [int64] the sum wraps around, the announced length is the
    smallest [int64] and no byte is sent. *)
Theorem serveRange_sends_file_slice (w : Http.Response) (h : string)
    (file : list byte) (fileSize : Z) (ct : string) :
  let r := serveRange w h file fileSize ct in
  (Http.status r = 416 ∧
   Http.body r = Http.body w ++ Http.errorLine msgInvalidRange) ∨
  (Http.status r = 206 ∧
   ∃ start end_ contentLength sent,
     0 ≤ start ≤ end_ ∧ start < fileSize ∧
     Http.header r !! "Content-Length" = Some (Strconv.FormatInt contentLength) ∧
     Http.body r = Http.body w ++ sent ∧
     sent = take (Z.to_nat contentLength) (drop (Z.to_nat start) file) ∧
     (contentLength = end_ - start + 1 ∧
      Z.of_nat (length sent) ≤ contentLength
      ∨ start = 0 ∧ end_ = maxInt64 ∧ contentLength = minInt64 ∧ sent = [])).
Proof.
  intros r. subst r.
  destruct (serveRange_cases w h file fileSize ct)
    as [->|(start & end_ & [H0 Hle] & Hlt & -> & Hmax)]; [by left|right].
  destruct (respondRange_ok w start end_ file fileSize ct)
    as (Hst & _ & Hcl & _ & Hbody); [done..|].
  split; [done|]. eexists start, end_, _, _.
  split; [done|]. split; [done|]. split; [exact Hcl|]. split; [exact Hbody|].
  split; [done|].
  rewrite (wrap64_id (end_ - start)) by solve_int64.
  destruct (Z.eq_dec (end_ - start) maxInt64) as [Hfull|Hless].
  - right. assert (start = 0) as -> by solve_int64.
    assert (end_ = maxInt64) as -> by lia.
    change (wrap64 (maxInt64 - 0 + 1)) with minInt64.
    by repeat split.
  - left. rewrite wrap64_id by solve_int64. split; [done|].
    unfold seekCopyN. rewrite length_take. lia.
Qed.

(** The exception: the whole range of [int64]. *)
Example serveRange_content_length_wraps :
  let r := serveRange Http.fresh "bytes=0-9223372036854775807" file1000 1000
             "video/mp4" in
  Http.status r = 206 ∧
  Http.header r !! "Content-Length" = Some "-9223372036854775808" ∧
  Http.body r = [].
Proof. vm_compute. by repeat split. Qed.

Lemma serveRange_parsed (w : Http.Response) (s e : string) (start end_ : Z)
    (file : list byte) (fileSize : Z) (ct : string) :
  minInt64 < fileSize ≤ maxInt64 → noDash s → noDash e →
  Strconv.ParseInt s = Some start →
  (e = "" ∧ end_ = fileSize - 1) ∨ Strconv.ParseInt e = Some end_ →
  serveRange w ("bytes=" +:+ s +:+ "-" +:+ e) file fileSize ct =
    respondRange w start end_ file fileSize ct.
Proof.
  intros Hsize Hs He Hstart Hend.
  rewrite serveRange_single_range by done.
  unfold parseStart, parseEnd.
  rewrite (ParseInt_nonempty _ _ Hstart), Hstart.
  destruct Hend as [[-> ->]|Hend].
  - cbn [String.eqb]. by rewrite wrap64_id by solve_int64.
  - by rewrite (ParseInt_nonempty _ _ Hend), Hend.
Qed.

Lemma respondRange_content_type (w : Http.Response) (start end_ : Z)
    (file : list byte) (fileSize : Z) (ct : string) :
  start ≤ end_ → start < fileSize →
  Http.header (respondRange w start end_ file fileSize ct) !! "Content-Type"
    = Some ct.
Proof.
  intros Hle Hlt. unfold respondRange.
  destruct (Z.ltb_spec end_ start); [lia|].
  destruct (Z.leb_spec fileSize start); [lia|].
  cbn. rewrite !lookup_insert_ne by done. by rewrite lookup_insert_eq.
Qed.

(** X16: [/stream/] on a file that exists and opens, with a Range header
    that lies inside the file: status 206, the content type of the
    extension, [Content-Range: bytes {start}-{end}/{size}], a
    [Content-Length] of [end - start + 1] and exactly these bytes of the
    file, from offset [start]. *)
Theorem streamHandler_partial_content (W : World) (urlPath s e : string)
    (start end_ : Z) (info : FileInfo) (file : list byte) :
  osStat W (streamHandler_filePath urlPath) = StatOk info →
  osOpen W (streamHandler_filePath urlPath) = Some file →
  fiSize info = Z.of_nat (length file) → fiSize info ≤ maxInt64 →
  noDash s → noDash e →
  Strconv.ParseInt s = Some start →
  (e = "" ∧ end_ = fiSize info - 1) ∨ Strconv.ParseInt e = Some end_ →
  start ≤ end_ → end_ < fiSize info →
  let r := streamHandler W urlPath ("bytes=" +:+ s +:+ "-" +:+ e) in
  Http.status r = 206 ∧
  Http.header r !! "Content-Type" =
    Some (videoContentType (lowerExt W (streamHandler_filePath urlPath))) ∧
  Http.header r !! "Content-Range" =
    Some ("bytes " +:+ Strconv.FormatInt start +:+ "-" +:+ Strconv.FormatInt end_
          +:+ "/" +:+ Strconv.FormatInt (fiSize info)) ∧
  Http.header r !! "Content-Length" = Some (Strconv.FormatInt (end_ - start + 1)) ∧
  Http.body r = take (Z.to_nat (end_ - start + 1)) (drop (Z.to_nat start) file) ∧
  Z.of_nat (length (Http.body r)) = end_ - start + 1.
Proof.
  intros Hstat Hopen Hsize Hmax Hs He Hstart Hend Hle Hin r. subst r.
  pose proof (ParseInt_nonneg _ _ Hs Hstart) as H0.
  unfold streamHandler. rewrite Hstat, Hopen.
  change (String.eqb ("bytes=" +:+ s +:+ "-" +:+ e) "") with false.
  cbn [negb].
  rewrite (serveRange_parsed _ s e start end_) by (try done; solve_int64).
  set (ct := videoContentType _).
  destruct (respondRange_ok Http.fresh start end_ file (fiSize info) ct)
    as (Hst & Hcr & Hcl & _ & Hbody); [lia..|].
  rewrite (wrap64_id (end_ - start)), wrap64_id in Hcl, Hbody by solve_int64.
  split; [done|]. split; [apply respondRange_content_type; lia|].
  split; [done|]. split; [done|]. rewrite Hbody. split; [done|].
  apply seekCopyN_length; lia.
Qed.

Lemma streamHandler_partial_content_witness :
  let r := streamHandler worldOneAvi "/stream/C:/v/a.avi"
             ("bytes=" +:+ "100" +:+ "-" +:+ "199") in
  Http.status r = 206 ∧
  Http.header r !! "Content-Type" =
    Some (videoContentType
            (lowerExt worldOneAvi (streamHandler_filePath "/stream/C:/v/a.avi"))) ∧
  Http.header r !! "Content-Range" =
    Some ("bytes " +:+ Strconv.FormatInt 100 +:+ "-" +:+ Strconv.FormatInt 199
          +:+ "/" +:+ Strconv.FormatInt
                        (fiSize (mkFileInfo 1000 "2024-01-01 00:00:00" false))) ∧
  Http.header r !! "Content-Length" = Some (Strconv.FormatInt (199 - 100 + 1)) ∧
  Http.body r = take (Z.to_nat (199 - 100 + 1)) (drop (Z.to_nat 100) file1000) ∧
  Z.of_nat (length (Http.body r)) = 199 - 100 + 1.
Proof.
  apply (streamHandler_partial_content worldOneAvi "/stream/C:/v/a.avi"
           "100" "199" 100 199 (mkFileInfo 1000 "2024-01-01 00:00:00" false)
           file1000);
    try reflexivity.
  - vm_compute. discriminate.
  - right. reflexivity.
  - vm_compute. discriminate.
Defined.

(** X17: the answers of [/stream/].  The status is one of 200, 206, 404,
    416 and 500; a file that does not exist gives 404, a file that cannot
    be stat'ed or opened gives 500; and without a Range header a file that
    opens is sent whole with status 200, [Accept-Ranges: bytes], the
    content type of its extension and the size of its stat as
    [Content-Length]. *)
Theorem streamHandler_answers (W : World) (urlPath rangeHeader : string) :
  let r := streamHandler W urlPath rangeHeader in
  let filePath := streamHandler_filePath urlPath in
  Http.status r ∈ [200; 206; 404; 416; 500] ∧
  (osStat W filePath = StatNotExist → Http.status r = 404) ∧
  ((∃ err, osStat W filePath = StatFailed err) ∨
   (∃ info, osStat W filePath = StatOk info) ∧ osOpen W filePath = None →
   Http.status r = 500) ∧
  (∀ info file,
     osStat W filePath = StatOk info → osOpen W filePath = Some file →
     rangeHeader = "" →
     Http.status r = 200 ∧ Http.body r = file ∧
     Http.header r !! "Content-Length" = Some (Strconv.FormatInt (fiSize info)) ∧
     Http.header r !! "Accept-Ranges" = Some "bytes" ∧
     Http.header r !! "Content-Type" = Some (videoContentType (lowerExt W filePath))).
Proof.
  intros r filePath. subst r filePath. unfold streamHandler.
  destruct (osStat W _) as [info| |err] eqn:Hstat.
  - destruct (osOpen W _) as [file|] eqn:Hopen.
    + destruct (String.eqb_spec rangeHeader "") as [->|Hrange]; cbn [negb].
      * split; [cbn; in_list|]. split; [done|].
        split; [by intros [[? [=]]|[_ [=]]]|].
        intros info' file' [= <-] [= <-] _. by cbn.
      * split.
        { destruct (serveRange_status Http.fresh rangeHeader file (fiSize info)
                      (videoContentType (lowerExt W (streamHandler_filePath urlPath))))
            as [->| ->]; in_list. }
        split; [done|]. split; [by intros [[? [=]]|[_ [=]]]|].
        by intros info' file' _ _ ?.
    + split; [cbn; in_list|]. split; [done|]. split; [done|].
      by intros info' file' _ [=].
  - split; [cbn; in_list|]. split; [done|].
    split; [by intros [[? [=]]|[[? [=]] _]]|]. by intros ? ? [=].
  - split; [cbn; in_list|]. split; [done|]. split; [done|].
    by intros ? ? [=].
Qed.

(** * The transcoder's process *)

(** X18: a request to [/transcode/] starts at most one process, and only
    [ffmpeg]: exactly one when ffmpeg is available, the stat of the file
    does not report it missing, the pipe for the standard error is made and
    [Start] succeeds; none otherwise.  A [Start] that fails is one failed
    call, answered with 500; when the pipe cannot be made [Start] is not
    called, and the answer is 500 too.  A missing file is answered with 404;
    the output of a started process is the body, with status 200.  The
    handler never touches the cache or the flag.  The path of the request
    enters the argument list only as the operand of [-i]; the other
    seventeen arguments are the same for every request. *)
Theorem transcodeHandler_spawns (W : World) (urlPath : string)
    (st : ServerState) :
  let filePath := transcodeHandler_filePath urlPath in
  let args := ffmpegArgs filePath in
  let missing :=
    match osStat W filePath with StatNotExist => true | _ => false end in
  let ready :=
    ffmpegAvailable st && negb missing && cmdStderrPipe W "ffmpeg" args in
  let '(r, st') := transcodeHandler W urlPath st in
  searchCache st' = searchCache st ∧
  ffmpegAvailable st' = ffmpegAvailable st ∧
  trace st' =
    trace st ++ (if ready then
                   match cmdStart W "ffmpeg" args with
                   | Some _ => [CmdStart "ffmpeg" args]
                   | None => [CmdStartFailed "ffmpeg" args]
                   end
                 else []) ∧
  (ffmpegAvailable st = true → missing = true → Http.status r = 404) ∧
  (ffmpegAvailable st = true → missing = false →
   cmdStderrPipe W "ffmpeg" args = false →
   Http.status r = 500 ∧ Http.body r = Http.errorLine "转码初始化失败") ∧
  (ready = true → cmdStart W "ffmpeg" args = None →
   Http.status r = 500 ∧ Http.body r = Http.errorLine "转码启动失败") ∧
  (∀ output, ready = true → cmdStart W "ffmpeg" args = Some output →
   Http.status r = 200 ∧ Http.body r = output) ∧
  take 2 args = ["-i"; filePath] ∧
  drop 2 args = drop 2 (ffmpegArgs "") ∧
  length args = 19%nat.
Proof.
  intros filePath args missing ready. subst filePath args missing ready.
  unfold transcodeHandler.
  destruct (ffmpegAvailable st) eqn:Hflag; cbn [negb andb];
    [|rewrite app_nil_r; by repeat split].
  destruct (osStat W _) as [info| |err]; cbn [negb andb];
    try (rewrite app_nil_r; by repeat split);
    (destruct (cmdStderrPipe W _ _); cbn [negb];
     [|rewrite app_nil_r; by repeat split]);
    (destruct (cmdStart W _ _) as [output|]; cbn;
     repeat split; try done; by simplify_eq).
Qed.

(** With ffmpeg installed and no pipe to be had, the request is answered
    with 500 and nothing is started. *)
Example transcodeHandler_without_pipe :
  let st := setFFmpeg true initialState in
  let '(r, st') := transcodeHandler worldNoPipe "/transcode/C:/v/a.avi" st in
  Http.status r = 500 ∧ trace st' = [].
Proof. by vm_compute. Qed.

(** * Paths without percent signs *)

Section PlainPaths.

Import Strings.

Lemma decode_without_percent (s : string) :
  ContainsByte s "%" = false →
  Url.wellFormed s = true ∧ Url.decode s = ReplaceAll s "+" " ".
Proof.
  induction s as [|c s IH]; [done|]. cbn [ContainsByte].
  intros [Hc Hs]%orb_false_elim. destruct (IH Hs) as [IH1 IH2].
  destruct c as [[] [] [] [] [] [] [] []];
    try discriminate Hc; cbn; by rewrite ?IH1, ?IH2.
Qed.

Lemma ReplaceAll_removes (s : string) (old new : ascii) :
  old ≠ new → ContainsByte (ReplaceAll s old new) old = false.
Proof.
  intros Hne. induction s as [|c s IH]; [done|]. cbn. rewrite IH, orb_false_r.
  destruct (Ascii.eqb_spec c old) as [->|Hc]; apply Ascii.eqb_neq; congruence.
Qed.

Lemma ReplaceAll_keeps_absent (s : string) (old new x : ascii) :
  x ≠ new → ContainsByte s x = false →
  ContainsByte (ReplaceAll s old new) x = false.
Proof.
  intros Hne. induction s as [|c s IH]; [done|]. cbn.
  intros [Hc Hs]%orb_false_elim. rewrite (IH Hs), orb_false_r.
  destruct (Ascii.eqb c old); [by apply Ascii.eqb_neq|done].
Qed.

Lemma ReplaceAll_absent (s : string) (old new : ascii) :
  ContainsByte s old = false → ReplaceAll s old new = s.
Proof.
  induction s as [|c s IH]; [done|]. cbn.
  intros [-> Hs]%orb_false_elim. by rewrite IH.
Qed.

Lemma unescapeLoop_without_percent (n : nat) (s : string) :
  ContainsByte s "%" = false →
  unescapeLoop (S n) s = ReplaceAll s "+" " ".
Proof.
  intros Hs. cbn [unescapeLoop]. unfold Url.QueryUnescape.
  destruct (decode_without_percent s Hs) as [-> ->].
  assert (ContainsByte (ReplaceAll s "+" " ") "%" = false) as Hpercent
    by (by apply ReplaceAll_keeps_absent).
  assert (ContainsByte (ReplaceAll s "+" " ") "+" = false) as Hplus
    by (by apply ReplaceAll_removes).
  generalize dependent (ReplaceAll s "+" " "). clear s Hs.
  induction n as [|n IH]; intros s Hpercent Hplus; [done|].
  cbn [unescapeLoop]. unfold Url.QueryUnescape.
  destruct (decode_without_percent s Hpercent) as [-> ->].
  rewrite (ReplaceAll_absent s "+" " " Hplus). by apply IH.
Qed.

(** X19: for a URL suffix without a percent sign the seven path-carrying
    handlers resolve the same path: the suffix with every [+] turned into
    a space and every [/] into a backslash.  A plus sign of a file name
    does not survive; a suffix with neither [%] nor [+] is only given
    backslashes. *)
Theorem paths_without_percent (suffix : string) :
  ContainsByte suffix "%" = false →
  let resolved := toWindowsPath (ReplaceAll suffix "+" " ") in
  fileHandler_filePath ("/file/" +:+ suffix) = resolved ∧
  streamHandler_filePath ("/stream/" +:+ suffix) = resolved ∧
  transcodeHandler_filePath ("/transcode/" +:+ suffix) = resolved ∧
  thumbnailHandler_filePath ("/thumbnail/" +:+ suffix) = resolved ∧
  videoPlayerHandler_filePath ("/video/" +:+ suffix) = resolved ∧
  imageViewerHandler_filePath ("/imageview/" +:+ suffix) = resolved ∧
  textViewerHandler_filePath ("/textview/" +:+ suffix) = resolved ∧
  ContainsByte resolved "+" = false ∧
  (ContainsByte suffix "+" = false → resolved = toWindowsPath suffix).
Proof.
  intros Hs resolved. subst resolved.
  unfold fileHandler_filePath, streamHandler_filePath, transcodeHandler_filePath,
    thumbnailHandler_filePath, videoPlayerHandler_filePath,
    imageViewerHandler_filePath, textViewerHandler_filePath.
  change (from 6 ("/file/" +:+ suffix)) with suffix.
  change (from 8 ("/stream/" +:+ suffix)) with suffix.
  change (from 11 ("/transcode/" +:+ suffix)) with suffix.
  change (from 11 ("/thumbnail/" +:+ suffix)) with suffix.
  change (from 7 ("/video/" +:+ suffix)) with suffix.
  change (from 11 ("/imageview/" +:+ suffix)) with suffix.
  change (from 10 ("/textview/" +:+ suffix)) with suffix.
  rewrite unescapeLoop_without_percent by done.
  repeat split.
  - unfold toWindowsPath. apply ReplaceAll_keeps_absent; [done|].
    by apply ReplaceAll_removes.
  - intros Hplus. by rewrite (ReplaceAll_absent suffix "+" " " Hplus).
Qed.

Lemma paths_without_percent_witness :
  fileHandler_filePath ("/file/" +:+ "C:/src/C++/a.txt") = "C:\src\C  \a.txt" ∧
  streamHandler_filePath ("/stream/" +:+ "C:/src/C++/a.txt") = "C:\src\C  \a.txt" ∧
  transcodeHandler_filePath ("/transcode/" +:+ "C:/src/C++/a.txt")
    = "C:\src\C  \a.txt" ∧
  thumbnailHandler_filePath ("/thumbnail/" +:+ "C:/src/C++/a.txt")
    = "C:\src\C  \a.txt" ∧
  videoPlayerHandler_filePath ("/video/" +:+ "C:/src/C++/a.txt")
    = "C:\src\C  \a.txt" ∧
  imageViewerHandler_filePath ("/imageview/" +:+ "C:/src/C++/a.txt")
    = "C:\src\C  \a.txt" ∧
  textViewerHandler_filePath ("/textview/" +:+ "C:/src/C++/a.txt")
    = "C:\src\C  \a.txt" ∧
  ContainsByte "C:\src\C  \a.txt" "+" = false ∧
  (ContainsByte "C:/src/C++/a.txt" "+" = false →
   "C:\src\C  \a.txt" = toWindowsPath "C:/src/C++/a.txt").
Proof.
  apply (paths_without_percent "C:/src/C++/a.txt"). reflexivity.
Defined.

End PlainPaths.

(** * The choice of the video player *)

(** X20: the page [/video/] serves.  Only the seven video extensions get a
    page.  The transcoding player is served exactly for [.avi] and [.flv]
    while ffmpeg is available, and the incompatibility page for these two
    when it is not; [.mp4], [.webm], [.mkv] and [.wmv] get the plain
    player and [.mov] the player with fallback.  A request without Referer
    is muted, and only a Referer that contains the Host unmutes. *)
Theorem videoPlayerHandler_player (W : World) (urlPath referer host : string)
    (st : ServerState) (kind : PlayerKind) (filePath fileName ext : string)
    (mute : bool) (source : string) :
  videoPlayerHandler W urlPath referer host st =
    VideoPage kind filePath fileName ext mute source →
  filePath = videoPlayerHandler_filePath urlPath ∧
  ext = lowerExt W filePath ∧ oneOf ext videoExts = true ∧
  (kind = TranscodePlayer ↔
   ffmpegAvailable st = true ∧ (ext = ".avi" ∨ ext = ".flv")) ∧
  (kind = IncompatiblePlayer ↔
   ffmpegAvailable st = false ∧ (ext = ".avi" ∨ ext = ".flv")) ∧
  (kind = CompatiblePlayer ↔
   ext = ".mp4" ∨ ext = ".webm" ∨ ext = ".mkv" ∨ ext = ".wmv") ∧
  (kind = FallbackPlayer ↔ ext = ".mov") ∧
  (referer = "" → mute = true) ∧
  (mute = false → Strings.Contains referer host = true).
Proof.
  unfold videoPlayerHandler.
  remember (videoPlayerHandler_filePath urlPath) as path eqn:Hpath.
  destruct (osStat W path) as [info| |err]; [|done..].
  assert (referer = "" → fromSearchPage referer host = false) as Hmute1.
  { by intros ->. }
  assert (fromSearchPage referer host = true →
          Strings.Contains referer host = true) as Hmute2.
  { unfold fromSearchPage. destruct (String.eqb referer ""); [done|].
    by destruct (Strings.Contains referer host). }
  generalize dependent (fromSearchPage referer host). intros fromSearch Hmute1 Hmute2.
  remember (lowerExt W path) as x eqn:Hx.
  unfold oneOf, videoExts, needTranscodeFormats, webCompatibleFormats.
  cbn [existsb].
  destruct (ffmpegAvailable st); split_ext x; cbn; try done;
    intros [= <- <- <- <- <- <-];
    (split; [done|]); (split; [done|]); (split; [done|]);
    (split; [intuition congruence|]); (split; [intuition congruence|]);
    (split; [intuition congruence|]); (split; [intuition congruence|]);
    (split; [intros Hr; by rewrite (Hmute1 Hr)|]);
    (destruct fromSearch; cbn; [intros _; by apply Hmute2|done]).
Qed.

Lemma videoPlayerHandler_player_witness :
  "C:\v\a.avi" = videoPlayerHandler_filePath "/video/C:/v/a.avi" ∧
  ".avi" = lowerExt worldOneAvi "C:\v\a.avi" ∧ oneOf ".avi" videoExts = true ∧
  (IncompatiblePlayer = TranscodePlayer ↔
   ffmpegAvailable initialState = true ∧ (".avi" = ".avi" ∨ ".avi" = ".flv")) ∧
  (IncompatiblePlayer = IncompatiblePlayer ↔
   ffmpegAvailable initialState = false ∧ (".avi" = ".avi" ∨ ".avi" = ".flv")) ∧
  (IncompatiblePlayer = CompatiblePlayer ↔
   ".avi" = ".mp4" ∨ ".avi" = ".webm" ∨ ".avi" = ".mkv" ∨ ".avi" = ".wmv") ∧
  (IncompatiblePlayer = FallbackPlayer ↔ ".avi" = ".mov") ∧
  ("" = "" → true = true) ∧
  (true = false → Strings.Contains "" "localhost:8080" = true).
Proof.
  apply (videoPlayerHandler_player worldOneAvi "/video/C:/v/a.avi" ""
           "localhost:8080" initialState IncompatiblePlayer "C:\v\a.avi"
           "a.avi" ".avi" true "直接访问").
  reflexivity.
Defined.

(** * The text preview *)

Lemma Split_length (s : string) (sep : ascii) :
  length (Strings.Split s sep) = S (Lib.Count s sep).
Proof.
  induction s as [|c s IH]; [done|]. cbn.
  destruct (Ascii.eqb c sep); cbn; [by rewrite IH|].
  destruct (Strings.Split s sep); cbn in *; lia.
Qed.

Lemma detectEncoding_answer (data : list byte) :
  detectEncoding data = if isValidUTF8 data then "UTF-8" else "Unknown".
Proof.
  unfold detectEncoding, isValidUTF8, tryGBKDecode.
  destruct data as [|b data]; [done|].
  change (0 <? Z.of_nat (length (b :: data))) with true. cbn [andb].
  destruct (Lib.utf8Valid (b :: data)) eqn:Hvalid; [done|].
  destruct (existsb _ (b :: data)) eqn:Hhigh; [done|].
  apply ascii_is_utf8 in Hhigh. congruence.
Qed.

(** X21: the preview of a regular file of at most 10 MiB that can be
    read.  The content of the answer is the content of the file as the
    JSON encoder writes it, every byte that is not part of a valid UTF-8
    encoding replaced by U+FFFD: it is the file byte for byte exactly when
    the file is valid UTF-8, and no other encoding is converted.  The
    number of lines is one more than the number of line feeds of the file,
    so at least 1 even for an empty file; the encoding is [UTF-8] for
    non-empty valid UTF-8 and [Unknown] otherwise, never [GBK]; the size is
    the one of the stat. *)
Theorem textPreviewHandler_content (W : World)
    (osReadFile : string → list byte + string) (filePath : string)
    (info : FileInfo) (content : list byte) :
  filePath ≠ "" → osStat W filePath = StatOk info →
  fiIsDir info = false → fiSize info ≤ maxFileSize →
  osReadFile filePath = inl content →
  ∃ response,
    textPreviewHandler W osReadFile filePath = PreviewJSON response ∧
    list_byte_of_string (tpContent response) = Json.stringBytes content ∧
    (list_byte_of_string (tpContent response) = content
     ↔ Lib.utf8Valid content = true) ∧
    tpLines response = 1 + Z.of_nat (Lib.Count (Lib.stringOf content) lineFeed) ∧
    1 ≤ tpLines response ∧
    tpEncoding response = (if isValidUTF8 content then "UTF-8" else "Unknown") ∧
    tpEncoding response ≠ "GBK" ∧
    tpSize response = fiSize info ∧ tpPath response = Json.text filePath.
Proof.
  intros Hpath Hstat Hdir Hsize Hread. unfold textPreviewHandler.
  apply String.eqb_neq in Hpath. rewrite Hpath, Hstat, Hdir, Hread.
  destruct (Z.ltb_spec maxFileSize (fiSize info)); [lia|].
  eexists. split; [done|].
  cbn [encodeTextPreview tpContent tpLines tpEncoding tpSize tpPath].
  rewrite detectAndConvertEncoding_unchanged, Split_length, detectEncoding_answer.
  assert (list_byte_of_string (Json.text (Lib.stringOf content))
          = Json.stringBytes content) as ->.
  { unfold Json.text, Lib.stringOf.
    by rewrite !list_byte_of_string_of_list_byte. }
  split; [done|]. split.
  { split; [apply stringBytes_fixed|apply stringBytes_valid]. }
  split; [lia|]. split; [lia|].
  destruct (isValidUTF8 content); by repeat split.
Qed.

Lemma textPreviewHandler_content_witness :
  ∃ response,
    textPreviewHandler worldOneText (λ _, inl twoLines) "C:\notes.txt"
      = PreviewJSON response ∧
    list_byte_of_string (tpContent response) = Json.stringBytes twoLines ∧
    (list_byte_of_string (tpContent response) = twoLines
     ↔ Lib.utf8Valid twoLines = true) ∧
    tpLines response = 1 + Z.of_nat (Lib.Count (Lib.stringOf twoLines) lineFeed) ∧
    1 ≤ tpLines response ∧
    tpEncoding response = (if isValidUTF8 twoLines then "UTF-8" else "Unknown") ∧
    tpEncoding response ≠ "GBK" ∧
    tpSize response = fiSize (mkFileInfo 5 "2024-01-01 00:00:00" false) ∧
    tpPath response = Json.text "C:\notes.txt".
Proof.
  apply (textPreviewHandler_content worldOneText (λ _, inl twoLines)
           "C:\notes.txt" (mkFileInfo 5 "2024-01-01 00:00:00" false) twoLines);
    try reflexivity.
  - discriminate.
  - vm_compute. discriminate.
Defined.

(** A file in GBK is not converted: each of its four high bytes comes out
    as the replacement character, and the encoding is [Unknown]. *)
Example textPreviewHandler_gbk :
  ∃ response,
    textPreviewHandler worldOneText (λ _, inl gbkBytes) "C:\notes.txt"
      = PreviewJSON response ∧
    list_byte_of_string (tpContent response) =
      Json.replacement ++ Json.replacement ++ Json.replacement
      ++ Json.replacement ++ [x0a] ∧
    tpLines response = 2 ∧ tpEncoding response = "Unknown".
Proof. eexists. split; [reflexivity|]. by vm_compute. Qed.

(** X22: the list of common file names in [isTextFile] is never matched.
    The names are compared with the base name of the argument, which is
    the extension; whenever that base name begins with a dot, as it does
    for the values of [filepath.Ext] (empty, with base name [.], or
    beginning with a dot), the answer is the one of the extension list
    alone, and a file without extension is not a text file. *)
Theorem isTextFile_ignores_common_names (W : World)
    (toLower : string → string) (ext : string) :
  (∃ rest, toLower (filepathBase W ext) = String "." rest) →
  isTextFile W toLower ext = oneOf ext textExts ∧
  (ext = "" → isTextFile W toLower ext = false).
Proof.
  intros [rest Hbase].
  assert (isTextFile W toLower ext = oneOf ext textExts) as Heq.
  { unfold isTextFile. destruct (oneOf ext textExts); [done|].
    by rewrite Hbase. }
  split; [done|]. intros ->. by rewrite Heq.
Qed.

Lemma isTextFile_ignores_common_names_witness :
  isTextFile worldFiles (λ s, s) ".readme" = oneOf ".readme" textExts ∧
  (".readme" = "" → isTextFile worldFiles (λ s, s) ".readme" = false).
Proof.
  apply (isTextFile_ignores_common_names worldFiles (λ s, s) ".readme").
  by exists "readme".
Defined.

(** * The pages of a list *)

Lemma pages_prefix (pageSize totalCount : Z) (n : nat) :
  1 ≤ pageSize → 0 ≤ totalCount → Z.of_nat n * pageSize ≤ maxInt64 →
  concat (map (λ page, pageWindow page pageSize totalCount)
            (seqZ 1 (Z.of_nat n))) =
    seqZ 0 (Z.min (Z.of_nat n * pageSize) totalCount).
Proof.
  intros Hps Htotal. induction n as [|n IH]; intros Hmax.
  { by rewrite (seqZ_nil 1), (seqZ_nil 0) by lia. }
  replace (Z.of_nat (S n)) with (Z.of_nat n + 1) by lia.
  rewrite seqZ_app by lia. rewrite map_app, concat_app, IH by nia.
  rewrite (seqZ_cons _ 1), (seqZ_nil _ (Z.pred 1)) by lia.
  cbn [map concat]. rewrite app_nil_r.
  destruct (pageWindow_in_range (1 + Z.of_nat n) pageSize totalCount)
    as [-> _]; [lia|lia|nia|].
  replace ((1 + Z.of_nat n - 1) * pageSize) with (Z.of_nat n * pageSize) by lia.
  destruct (Z.le_gt_cases (Z.of_nat n * pageSize) totalCount) as [Hin|Hout].
  - rewrite (Z.min_l (Z.of_nat n * pageSize)) by lia.
    replace (seqZ (Z.of_nat n * pageSize))
      with (seqZ (0 + Z.of_nat n * pageSize)) by (f_equal; lia).
    rewrite <- seqZ_app by lia. f_equal. lia.
  - rewrite (seqZ_nil (Z.of_nat n * pageSize)) by lia.
    rewrite app_nil_r. f_equal. lia.
Qed.

(** X23: the pages 1 to [totalPages] of a list split it: their windows,
    one after the other, are the indices 0 to [totalCount - 1], each once
    and in order.  No path is left out and none is shown on two pages. *)
Theorem pages_partition (pageSize totalCount : Z) :
  1 ≤ pageSize → 0 ≤ totalCount → totalCount + pageSize ≤ maxInt64 →
  concat (map (λ page, pageWindow page pageSize totalCount)
            (seqZ 1 (totalPagesOf totalCount pageSize))) =
    seqZ 0 totalCount.
Proof.
  intros Hps Htotal Hmax.
  destruct (totalPagesOf_ceil totalCount pageSize) as [_ [Hlo Hhi]]; [done..|].
  set (pages := totalPagesOf totalCount pageSize) in *.
  assert (0 ≤ pages) by nia.
  replace pages with (Z.of_nat (Z.to_nat pages)) at 1 by lia.
  rewrite pages_prefix by (try done; nia).
  f_equal. lia.
Qed.

Lemma pages_partition_witness :
  concat (map (λ page, pageWindow page 2 5) (seqZ 1 (totalPagesOf 5 2))) =
    seqZ 0 5.
Proof.
  apply (pages_partition 2 5); vm_compute; discriminate.
Defined.

(** * The commands of a run *)





(** A run with a search that falls back to es.exe and a transcoding. *)
Example commands_of_a_run :
  let W :=
    {| everythingSDK := λ _, inr "Everything查询失败";
       esExe := esExe worldOneAvi; osStat := osStat worldOneAvi;
       osOpen := osOpen worldOneAvi; filepathBase := filepathBase worldOneAvi;
       lowerExt := lowerExt worldOneAvi; cmdRun := cmdRun worldOneAvi;
       cmdStart := cmdStart worldOneAvi;
       cmdStderrPipe := cmdStderrPipe worldOneAvi |} in
  omap commandOf
    (trace (snd (main W [GetApiSearch 0 0 "avi" "" "";
                         GetTranscode "/transcode/C:/v/a.avi"]))) =
    [("ffmpeg", ["-version"]); ("./es.exe", ["avi"]);
     ("ffmpeg", ffmpegArgs "C:\v\a.avi")].
Proof. reflexivity. Qed.

(** X25: a request to [/api/search] that misses the cache calls the SDK
    first and es.exe exactly when the SDK fails; it is answered with an
    error of status 500 exactly when both fail, and then the cache is left
    as it was. *)
Theorem api_search_miss (W : World) (tGet tPut : Z)
    (query pageStr pageSizeStr : string) (st : ServerState) :
  query ≠ "" → cacheGet st query tGet = None →
  let sdkFails := match everythingSDK W query with inr _ => true | _ => false end in
  let esFails := match esExe W query with inr _ => true | _ => false end in
  let '(reply, st') := apiSearchHandler W tGet tPut query pageStr pageSizeStr st in
  trace st' =
    trace st ++ CallSDK query :: (if sdkFails then [CallESExe query] else []) ∧
  ((∃ message, reply = ReplyError 500 message) ↔
   sdkFails = true ∧ esFails = true) ∧
  (sdkFails = true → esFails = true → searchCache st' = searchCache st).
Proof.
  intros Hq Hmiss sdkFails esFails. subst sdkFails esFails.
  unfold apiSearchHandler. apply String.eqb_neq in Hq. rewrite Hq.
  pose proof (searchFilesWithCache_miss W tGet tPut query (parsePage pageStr)
                (parsePageSize pageSizeStr) st Hmiss) as Hspec.
  destruct (searchFilesWithCache _ _ _ _ _ _ _) as [r st'].
  destruct (everythingSDK W query) as [P|e1].
  - destruct Hspec as (Htrace & _ & ->). unfold paginate.
    destruct (_ =? 0); [|destruct (collectPage _ _ _ _)]; cbn;
      (split; [done|]); (split; [|done]);
      (split; [by intros [? [=]]|by intros [[=] _]]).
  - destruct (esExe W query) as [P|e2].
    + destruct Hspec as (Htrace & _ & ->). unfold paginate.
      destruct (_ =? 0); [|destruct (collectPage _ _ _ _)]; cbn;
        (split; [done|]); (split; [|done]);
        (split; [by intros [? [=]]|by intros [_ [=]]]).
    + destruct Hspec as (Htrace & Hcache & [err ->]). cbn.
      split; [done|]. split; [|done]. split; [done|]. intros _. by eexists.
Qed.

Lemma api_search_miss_witness :
  let '(reply, st') :=
    apiSearchHandler worldBackendsDown 0 0 "video" "" "" initialState in
  trace st' = trace initialState ++ CallSDK "video" :: [CallESExe "video"] ∧
  ((∃ message, reply = ReplyError 500 message) ↔ true = true ∧ true = true) ∧
  (true = true → true = true → searchCache st' = searchCache initialState).
Proof.
  apply (api_search_miss worldBackendsDown 0 0 "video" "" "" initialState).
  - discriminate.
  - reflexivity.
Defined.
